(** * Directory / roster manager: record model, cascades, derived views

    A shallow embedding of the TypeScript sources (React components over a
    CRUD entity layer) and the properties the specification states about
    them.  Pure computations (filters, sorts, permission checks) become Rocq
    functions over lists; the event handlers that write to the backend become
    computations in a small state-and-exception monad over the record store. *)

From Stdlib Require Import List String Ascii ZArith Lia Bool Arith.
From Stdlib Require Import Permutation Sorted DecimalString.
Import ListNotations.
Open Scope string_scope.

(* ================================================================== *)
(** ** JavaScript array and value helpers *)

(** [Array.prototype.includes] on an array of strings. *)
Definition includes (l : list string) (x : string) : bool :=
  existsb (String.eqb x) l.

(** Truthiness of an optional string ([undefined], [null] and the empty
    string are falsy), as in [!person.householdId] and [if (!id) return]. *)
Definition truthy (o : option string) : bool :=
  match o with
  | Some EmptyString => false
  | Some _ => true
  | None => false
  end.

(** [Array.prototype.sort(cmp)]: the sort is stable (ECMAScript 2019); [x] is
    placed before [y] when [cmp x y < 0] and elements that compare equal keep
    their relative order.  Modelled as a stable insertion sort. *)
Section JsSort.
Context {A : Type} (cmp : A -> A -> Z).

Fixpoint js_insert (x : A) (l : list A) : list A :=
  match l with
  | [] => [x]
  | y :: ys => if (cmp x y <=? 0)%Z then x :: y :: ys else y :: js_insert x ys
  end.

Fixpoint js_sort (l : list A) : list A :=
  match l with
  | [] => []
  | x :: xs => js_insert x (js_sort xs)
  end.
End JsSort.

(** [x] may stand before [y] in a sorted array. *)
Definition js_before {A : Type} (cmp : A -> A -> Z) (x y : A) : Prop :=
  (cmp x y <= 0)%Z.

(** [Array.prototype.slice(0, n)]. *)
Definition slice0 {A : Type} (n : nat) (l : list A) : list A := firstn n l.

(* ================================================================== *)
(** ** Entity types (types.ts) *)

Definition Id := string.

Inductive Role := owner | admin | member | viewer.

Definition Role_eqb (a b : Role) : bool :=
  match a, b with
  | owner, owner | admin, admin | member, member | viewer, viewer => true
  | _, _ => false
  end.

Inductive FieldType :=
  | ft_text | ft_textarea | ft_number | ft_date | ft_checkbox
  | ft_select | ft_multiselect | ft_email | ft_phone | ft_url.

(** [ProfileFieldDef.visibility]. *)
Inductive FieldVisibility := public | field_staff_only.

(** [Note.visibility]. *)
Inductive NoteVisibility := staff_only | org.

Inductive Status := active | inactive | visitor.

Inductive Relationship := head | spouse | child | other.

(** Timestamps ([createdAt], [updatedAt]) are ISO strings in the source and
    are only ever read through [new Date(s).getTime()]; they are carried here
    as that number of milliseconds. *)
Record ProfileFieldDefType := {
  pfd_id : Id;
  pfd_organizationId : Id;
  pfd_key : string;
  pfd_label : string;
  pfd_type : FieldType;
  pfd_options : list (string * string);
  pfd_required : bool;
  pfd_visibility : FieldVisibility;
  pfd_archived : bool;
  pfd_orderIndex : Z;
  pfd_createdAt : Z;
  pfd_updatedAt : Z
}.

(** The dynamic [fields] bag and the optional contact attributes of a person
    are not read by any computation below and are left out. *)
Record PersonType := {
  person_id : Id;
  person_organizationId : Id;
  person_firstName : string;
  person_lastName : string;
  person_status : Status;
  person_householdId : option Id;
  person_tagIds : list Id;
  person_createdAt : Z;
  person_updatedAt : Z
}.

(** [Household], [HouseholdMember] and [Tag] carry no [archived] attribute in
    types.ts; the handlers add it with [update(id, { archived: true })].  An
    absent attribute reads as [false]. *)
Record HouseholdType := {
  household_id : Id;
  household_organizationId : Id;
  household_name : string;
  household_createdAt : Z;
  household_updatedAt : Z;
  household_archived : bool
}.

Record HouseholdMemberType := {
  hm_id : Id;
  hm_organizationId : Id;
  hm_householdId : Id;
  hm_personId : Id;
  hm_relationship : Relationship;
  hm_archived : bool
}.

Record TagType := {
  tag_id : Id;
  tag_organizationId : Id;
  tag_name : string;
  tag_color : option string;
  tag_createdAt : Z;
  tag_archived : bool
}.

Record NoteType := {
  note_id : Id;
  note_organizationId : Id;
  note_personId : Id;
  note_authorUserId : Id;
  note_body : string;
  note_visibility : NoteVisibility;
  note_createdAt : Z
}.

Record ApiResponse (T : Type) := {
  success : bool;
  message : string;
  data : option T
}.
Arguments success {T} _.
Arguments message {T} _.
Arguments data {T} _.

(* ================================================================== *)
(** ** hooks/usePermissions.ts *)

Record Permissions := {
  userRole : Role;
  canView : unit -> bool;
  canEdit : unit -> bool;
  canDelete : unit -> bool;
  canManageSettings : unit -> bool;
  canViewStaffOnly : unit -> bool;
  canManageOrganization : unit -> bool;
  isOwner : bool;
  isAdmin : bool;
  isMember : bool;
  isViewer : bool
}.

Definition roles_include (l : list Role) (r : Role) : bool :=
  existsb (Role_eqb r) l.

Definition usePermissions (userRole : Role) : Permissions :=
  {| userRole := userRole;
     canView := fun _ => true;
     canEdit := fun _ => roles_include [owner; admin; member] userRole;
     canDelete := fun _ => roles_include [owner; admin; member] userRole;
     canManageSettings := fun _ => roles_include [owner; admin] userRole;
     canViewStaffOnly := fun _ => roles_include [owner; admin; member] userRole;
     canManageOrganization := fun _ => Role_eqb userRole owner;
     isOwner := Role_eqb userRole owner;
     isAdmin := Role_eqb userRole admin;
     isMember := Role_eqb userRole member;
     isViewer := Role_eqb userRole viewer |}.

(* ================================================================== *)
(** ** Derived views: the pure part of the components' [loadData] *)

Definition FieldVisibility_is_public (v : FieldVisibility) : bool :=
  match v with public => true | field_staff_only => false end.

Module PersonProfile.

(** [visibleFields] of [loadData]: a filter of [ProfileFieldDef.list()],
    in the order of the response. *)
Definition visibleFields (userRole : Role) (fieldsRes : list ProfileFieldDefType)
  : list ProfileFieldDefType :=
  filter (fun f => negb (pfd_archived f)
                   && (FieldVisibility_is_public (pfd_visibility f)
                       || negb (Role_eqb userRole viewer)))
         fieldsRes.

(** [personNotes] of [loadData]: the notes of person [id], newest first. *)
Definition personNotes (id : Id) (notesRes : list NoteType) : list NoteType :=
  js_sort (fun a b => (note_createdAt b - note_createdAt a)%Z)
          (filter (fun note => note_personId note =? id) notesRes).

(** What [loadData] stores in the component state for the field list and
    the notes list ([setProfileFields], [setNotes]). *)
Record Loaded := {
  profileFields : list ProfileFieldDefType;
  notes : list NoteType
}.

Definition loadData (userRole : Role) (id : Id)
           (fieldsRes : list ProfileFieldDefType) (notesRes : list NoteType)
  : Loaded :=
  {| profileFields := visibleFields userRole fieldsRes;
     notes := personNotes id notesRes |}.

End PersonProfile.

Module PersonForm.

(** [visibleFields] of the form's [loadData]: the same filter. *)
Definition visibleFields (userRole : Role) (fieldsRes : list ProfileFieldDefType)
  : list ProfileFieldDefType :=
  filter (fun f => negb (pfd_archived f)
                   && (FieldVisibility_is_public (pfd_visibility f)
                       || negb (Role_eqb userRole viewer)))
         fieldsRes.

End PersonForm.

Module ProfileFields.

(** [sortedFields] of the settings page: non-archived definitions sorted by
    [orderIndex]; no role or visibility test. *)
Definition sortedFields (fieldsRes : list ProfileFieldDefType)
  : list ProfileFieldDefType :=
  js_sort (fun a b => (pfd_orderIndex a - pfd_orderIndex b)%Z)
          (filter (fun field => negb (pfd_archived field)) fieldsRes).

End ProfileFields.

Module Dashboard.

(** A tag together with its usage count ([TagType & { count: number }]). *)
Record TagWithCount := {
  tc_tag : TagType;
  count : nat
}.

Definition withCount (people : list PersonType) (tag : TagType) : TagWithCount :=
  {| tc_tag := tag;
     count := List.length (filter (fun p => includes (person_tagIds p) (tag_id tag)) people) |}.

Definition byCountDesc (a b : TagWithCount) : Z :=
  (Z.of_nat (count b) - Z.of_nat (count a))%Z.

(** [tags.map(...).sort((a, b) => b.count - a.count)]. *)
Definition rankedTags (people : list PersonType) (tags : list TagType)
  : list TagWithCount :=
  js_sort byCountDesc (map (withCount people) tags).

(** [stats.topTags]. *)
Definition topTags (people : list PersonType) (tags : list TagType)
  : list TagWithCount :=
  slice0 5 (rankedTags people tags).

(** [recentNotes]: the first ten notes of [Note.list()], whatever the role
    (the component reads only [organizationId] from the context). *)
Definition recentNotes (notesRes : list NoteType) : list NoteType :=
  slice0 10 notesRes.

End Dashboard.

(** The ranking rule in the specification's words: between two entries with
    equal counts the one created earlier comes first. *)
Definition ties_by_createdAt (l : list Dashboard.TagWithCount) : Prop :=
  forall i j a b,
    i < j -> nth_error l i = Some a -> nth_error l j = Some b ->
    Dashboard.count a = Dashboard.count b ->
    (tag_createdAt (Dashboard.tc_tag a) <= tag_createdAt (Dashboard.tc_tag b))%Z.

(* ================================================================== *)
(** ** The record store and the entity layer

    The entity modules ([entities/Person], [entities/Tag], ...) that the
    components import are not part of the sources at hand; the handlers that
    call them are.  The store below supplies what those calls need. *)

Record Store := {
  people : list PersonType;
  tags : list TagType;
  households : list HouseholdType;
  householdMembers : list HouseholdMemberType;
  nextId : nat
}.

Definition with_people (s : Store) (l : list PersonType) : Store :=
  {| people := l; tags := tags s; households := households s;
     householdMembers := householdMembers s; nextId := nextId s |}.

Definition with_tags (s : Store) (l : list TagType) : Store :=
  {| people := people s; tags := l; households := households s;
     householdMembers := householdMembers s; nextId := nextId s |}.

Definition with_households (s : Store) (l : list HouseholdType) : Store :=
  {| people := people s; tags := tags s; households := l;
     householdMembers := householdMembers s; nextId := nextId s |}.

Definition with_householdMembers (s : Store) (l : list HouseholdMemberType) : Store :=
  {| people := people s; tags := tags s; households := households s;
     householdMembers := l; nextId := nextId s |}.

(** What becomes of one request: it is carried out, the backend answers
    [success = false] without touching the store (section 6 of the
    specification: unexpected internal errors), or the awaited promise
    rejects, which the handlers' [try]/[catch] blocks provide for. *)
Inductive Fate := Deliver | Reject | Throw.

(** The store together with the fates of the requests still to come; once the
    list is used up every request is delivered. *)
Record World := {
  store : Store;
  fates : list Fate
}.

(** An [async] computation: it transforms the world and either throws an
    [Error] (left, with its message) or returns a value (right). *)
Definition Task (A : Type) : Type := World -> World * (string + A).

Definition ret {A : Type} (a : A) : Task A := fun w => (w, inr a).

Definition throw {A : Type} (msg : string) : Task A := fun w => (w, inl msg).

Definition bind {A B : Type} (m : Task A) (k : A -> Task B) : Task B :=
  fun w =>
    match m w with
    | (w', inl e) => (w', inl e)
    | (w', inr a) => k a w'
    end.

Definition try_catch {A : Type} (body : Task A) (handler : string -> Task A) : Task A :=
  fun w =>
    match body w with
    | (w', inl e) => handler e w'
    | (w', inr a) => (w', inr a)
    end.

Notation "x <- c1 ;; c2" := (bind c1 (fun x => c2))
  (at level 61, c1 at next level, right associativity).
Notation "c1 ;; c2" := (bind c1 (fun _ => c2))
  (at level 61, right associativity).

(** [for (const x of l) { await body(x) }]. *)
Fixpoint for_of {A : Type} (l : list A) (body : A -> Task unit) : Task unit :=
  match l with
  | [] => ret tt
  | x :: xs => body x ;; for_of xs body
  end.

Definition ok {T : Type} (x : T) : ApiResponse T :=
  {| success := true; message := "OK"; data := Some x |}.

Definition failure {T : Type} (msg : string) : ApiResponse T :=
  {| success := false; message := msg; data := None |}.

(** One request to the backend, subject to its fate. *)
Definition request {T : Type} (op : Store -> Store * ApiResponse T)
  : Task (ApiResponse T) :=
  fun w =>
    match fates w with
    | [] =>
        let (s', r) := op (store w) in ({| store := s'; fates := [] |}, inr r)
    | Deliver :: fs =>
        let (s', r) := op (store w) in ({| store := s'; fates := fs |}, inr r)
    | Reject :: fs =>
        ({| store := store w; fates := fs |}, inr (failure "Internal error"))
    | Throw :: fs =>
        ({| store := store w; fates := fs |}, inl "Network error")
    end.

(** Partial merge of the entity whose id is [id]. *)
Definition update_where {E : Type} (id_of : E -> Id) (merge : E -> E)
           (id : Id) (l : list E) : list E :=
  map (fun e => if id_of e =? id then merge e else e) l.

Definition or_keep {V : Type} (supplied : option V) (current : V) : V :=
  match supplied with Some v => v | None => current end.

Module Person.

(** The attributes a handler may supply to [Person.update]. *)
Record Patch := {
  status : option Status;
  householdId : option (option Id);
  tagIds : option (list Id)
}.

Definition merge (patch : Patch) (p : PersonType) : PersonType :=
  {| person_id := person_id p;
     person_organizationId := person_organizationId p;
     person_firstName := person_firstName p;
     person_lastName := person_lastName p;
     person_status := or_keep (status patch) (person_status p);
     person_householdId := or_keep (householdId patch) (person_householdId p);
     person_tagIds := or_keep (tagIds patch) (person_tagIds p);
     person_createdAt := person_createdAt p;
     person_updatedAt := person_updatedAt p |}.

(** A tag id resolves when a non-archived tag carries it. *)
Definition resolves_tag (s : Store) (t : Id) : bool :=
  existsb (fun g => (tag_id g =? t) && negb (tag_archived g)) (tags s).

(** Modelled from the spec: [Person.update] of the missing entity layer.
    By section 4.2 update is a partial merge (only supplied attributes
    change), and supplied [tagIds] must reference existing, non-archived
    tags, else the call fails with a ReferenceError; by section 6 failure is
    reported as [success = false] and leaves the store as it was. *)
Definition update_store (id : Id) (patch : Patch) (s : Store)
  : Store * ApiResponse PersonType :=
  match find (fun p => person_id p =? id) (people s) with
  | None => (s, failure "ReferenceError: person not found")
  | Some p =>
      if match tagIds patch with
         | Some ids => forallb (resolves_tag s) ids
         | None => true
         end
      then (with_people s (update_where person_id (merge patch) id (people s)),
            ok (merge patch p))
      else (s, failure "ReferenceError: unknown tag")
  end.

Definition update (id : Id) (patch : Patch) : Task (ApiResponse PersonType) :=
  request (update_store id patch).

(** Modelled from the spec: [Person.list] of the missing entity layer;
    people have no archive flag and are all listed. *)
Definition list (s : Store) : list PersonType := people s.

End Person.

Module TagEntity.

Record Patch := {
  name : option string;
  color : option (option string);
  archived : option bool
}.

Definition merge (patch : Patch) (t : TagType) : TagType :=
  {| tag_id := tag_id t;
     tag_organizationId := tag_organizationId t;
     tag_name := or_keep (name patch) (tag_name t);
     tag_color := or_keep (color patch) (tag_color t);
     tag_createdAt := tag_createdAt t;
     tag_archived := or_keep (archived patch) (tag_archived t) |}.

(** Modelled from the spec: [Tag.update] of the missing entity layer, a
    partial merge by id (section 4.2) with the result envelope of
    section 6. *)
Definition update_store (id : Id) (patch : Patch) (s : Store)
  : Store * ApiResponse TagType :=
  match find (fun t => tag_id t =? id) (tags s) with
  | None => (s, failure "ReferenceError: tag not found")
  | Some t =>
      (with_tags s (update_where tag_id (merge patch) id (tags s)),
       ok (merge patch t))
  end.

Definition update (id : Id) (patch : Patch) : Task (ApiResponse TagType) :=
  request (update_store id patch).

End TagEntity.

Module Household.

Record Patch := {
  name : option string;
  archived : option bool
}.

Definition merge (patch : Patch) (h : HouseholdType) : HouseholdType :=
  {| household_id := household_id h;
     household_organizationId := household_organizationId h;
     household_name := or_keep (name patch) (household_name h);
     household_createdAt := household_createdAt h;
     household_updatedAt := household_updatedAt h;
     household_archived := or_keep (archived patch) (household_archived h) |}.

(** Modelled from the spec: [Household.update] of the missing entity layer,
    a partial merge by id (section 4.2, section 6). *)
Definition update_store (id : Id) (patch : Patch) (s : Store)
  : Store * ApiResponse HouseholdType :=
  match find (fun h => household_id h =? id) (households s) with
  | None => (s, failure "ReferenceError: household not found")
  | Some h =>
      (with_households s
         (update_where household_id (merge patch) id (households s)),
       ok (merge patch h))
  end.

Definition update (id : Id) (patch : Patch) : Task (ApiResponse HouseholdType) :=
  request (update_store id patch).

End Household.

Module HouseholdMember.

Record Patch := {
  personId : option Id;
  relationship : option Relationship;
  organizationId : option Id;
  householdId : option Id;
  archived : option bool
}.

Definition merge (patch : Patch) (m : HouseholdMemberType) : HouseholdMemberType :=
  {| hm_id := hm_id m;
     hm_organizationId := or_keep (organizationId patch) (hm_organizationId m);
     hm_householdId := or_keep (householdId patch) (hm_householdId m);
     hm_personId := or_keep (personId patch) (hm_personId m);
     hm_relationship := or_keep (relationship patch) (hm_relationship m);
     hm_archived := or_keep (archived patch) (hm_archived m) |}.

(** Modelled from the spec: [HouseholdMember.update] of the missing entity
    layer, a partial merge by id (section 4.2, section 6). *)
Definition update_store (id : Id) (patch : Patch) (s : Store)
  : Store * ApiResponse HouseholdMemberType :=
  match find (fun m => hm_id m =? id) (householdMembers s) with
  | None => (s, failure "ReferenceError: household member not found")
  | Some m =>
      (with_householdMembers s
         (update_where hm_id (merge patch) id (householdMembers s)),
       ok (merge patch m))
  end.

Definition update (id : Id) (patch : Patch)
  : Task (ApiResponse HouseholdMemberType) :=
  request (update_store id patch).

(** The attributes [HouseholdMember.create] receives from the handler. *)
Record Draft := {
  draft_personId : Id;
  draft_relationship : Relationship;
  draft_organizationId : Id;
  draft_householdId : Id
}.

Definition fresh_id (n : nat) : Id :=
  "hm-" ++ NilEmpty.string_of_uint (Nat.to_uint n).

(** Modelled from the spec: [HouseholdMember.create] of the missing entity
    layer; section 3: entities are created via explicit create operations.
    The backend assigns the identity. *)
Definition create_store (d : Draft) (s : Store)
  : Store * ApiResponse HouseholdMemberType :=
  let row := {| hm_id := fresh_id (nextId s);
                hm_organizationId := draft_organizationId d;
                hm_householdId := draft_householdId d;
                hm_personId := draft_personId d;
                hm_relationship := draft_relationship d;
                hm_archived := false |} in
  ({| people := people s;
      tags := tags s;
      households := households s;
      householdMembers := householdMembers s ++ [row];
      nextId := S (nextId s) |},
   ok row).

Definition create (d : Draft) : Task (ApiResponse HouseholdMemberType) :=
  request (create_store d).

End HouseholdMember.

(* ================================================================== *)
(** ** The handlers

    Each handler is the body that runs once the user has confirmed
    ([Modal.confirm]'s [onOk]) and yields the toast it shows.  The trailing
    [await loadData()] only refreshes the component's own state; here the
    component state a handler reads is an explicit argument. *)

Inductive Toast :=
  | message_success (text : string)
  | message_error (text : string).

Module Tags.

(** The payload [{ tagIds: updatedTagIds }]. *)
Definition tagIds_only (updatedTagIds : list Id) : Person.Patch :=
  {| Person.status := None;
     Person.householdId := None;
     Person.tagIds := Some updatedTagIds |}.

(** [deleteTag] of the Tags page, in its two phases: the loop that removes
    the tag from the people who have it, then the request that archives the
    tag.  [people] is the component's state, as last set by [loadData] from
    [Person.list()]. *)
Definition updatedTagIds (tag : TagType) (person : PersonType) : list Id :=
  filter (fun tagId => negb (tagId =? tag_id tag)) (person_tagIds person).

Definition cascade (people : list PersonType) (tag : TagType) : Task unit :=
  let peopleWithTag :=
    filter (fun person => includes (person_tagIds person) (tag_id tag)) people in
  for_of peopleWithTag (fun person =>
    _ <- Person.update (person_id person)
           (tagIds_only (updatedTagIds tag person)) ;;
    ret tt).

(** What one delivered turn of the loop, for [person], makes of the people
    collection. *)
Definition cascade_turn (tag : TagType) (l : list PersonType)
           (person : PersonType) : list PersonType :=
  update_where person_id
    (Person.merge (tagIds_only (updatedTagIds tag person)))
    (person_id person) l.

(** The payload [{ archived: true }]. *)
Definition archived_true : TagEntity.Patch :=
  {| TagEntity.name := None;
     TagEntity.color := None;
     TagEntity.archived := Some true |}.

Definition archive (tag : TagType) : Task (ApiResponse TagType) :=
  TagEntity.update (tag_id tag) archived_true.

Definition deleteTag (people : list PersonType) (tag : TagType) : Task Toast :=
  try_catch
    (cascade people tag ;;
     _ <- archive tag ;;
     ret (message_success "Tag deleted successfully"))
    (fun err => ret (message_error err)).

End Tags.

Module HouseholdDetail.

(** The payloads [{ householdId: id }], [{ householdId: null }] and
    [{ archived: true }]. *)
Definition householdId_only (h : option Id) : Person.Patch :=
  {| Person.status := None;
     Person.householdId := Some h;
     Person.tagIds := None |}.

Definition archived_true : HouseholdMember.Patch :=
  {| HouseholdMember.personId := None;
     HouseholdMember.relationship := None;
     HouseholdMember.organizationId := None;
     HouseholdMember.householdId := None;
     HouseholdMember.archived := Some true |}.

(** The values of the member form. *)
Record Values := {
  personId : Id;
  relationship : Relationship
}.

(** [availablePeople]: the people offered by the form's person selector. *)
Definition availablePeople (allPeople : list PersonType)
           (editingMember : option HouseholdMemberType) : list PersonType :=
  filter (fun person =>
            match editingMember with
            | Some em =>
                (person_id person =? hm_personId em)
                || negb (truthy (person_householdId person))
            | None => negb (truthy (person_householdId person))
            end)
         allPeople.

Definition handleAddEditMember (id : option Id) (organizationId : Id)
           (editingMember : option HouseholdMemberType) (values : Values)
  : Task (option Toast) :=
  match id with
  | Some hid =>
      if truthy id then
        try_catch
          (response <-
             match editingMember with
             | Some em =>
                 HouseholdMember.update (hm_id em)
                   {| HouseholdMember.personId := Some (personId values);
                      HouseholdMember.relationship := Some (relationship values);
                      HouseholdMember.organizationId := Some organizationId;
                      HouseholdMember.householdId := Some hid;
                      HouseholdMember.archived := None |}
             | None =>
                 HouseholdMember.create
                   {| HouseholdMember.draft_personId := personId values;
                      HouseholdMember.draft_relationship := relationship values;
                      HouseholdMember.draft_organizationId := organizationId;
                      HouseholdMember.draft_householdId := hid |}
             end ;;
           (if negb (success response) then throw (message response) else ret tt) ;;
           _ <- Person.update (personId values) (householdId_only (Some hid)) ;;
           ret (Some (message_success
                        ("Member "
                         ++ (match editingMember with
                             | Some _ => "updated"
                             | None => "added"
                             end)
                         ++ " successfully"))))
          (fun err => ret (Some (message_error err)))
      else ret None
  | None => ret None
  end.

Definition handleRemoveMember (member : HouseholdMemberType) : Task Toast :=
  try_catch
    (_ <- HouseholdMember.update (hm_id member) archived_true ;;
     _ <- Person.update (hm_personId member) (householdId_only None) ;;
     ret (message_success "Member removed successfully"))
    (fun err => ret (message_error err)).

End HouseholdDetail.

Module HouseholdList.

(** The payload [{ archived: true }]. *)
Definition archived_true : Household.Patch :=
  {| Household.name := None;
     Household.archived := Some true |}.

Definition handleDelete (household : HouseholdType) : Task Toast :=
  try_catch
    (response <- Household.update (household_id household) archived_true ;;
     (if negb (success response) then throw (message response) else ret tt) ;;
     ret (message_success "Household deleted successfully"))
    (fun err => ret (message_error err)).

End HouseholdList.

(* ================================================================== *)
(** ** Referential integrity of a store *)

(** The world in which every request still to come is delivered. *)
Definition quiet (s : Store) : World := {| store := s; fates := [] |}.

(** The active (non-archived) member rows linking person [p] to household
    [h]. *)
Definition active_rows (s : Store) (h p : Id) : list HouseholdMemberType :=
  filter (fun m => negb (hm_archived m)
                   && (hm_householdId m =? h) && (hm_personId m =? p))
         (householdMembers s).

(** [Person.householdId] is [h] exactly when one active member row links the
    person to [h]. *)
Definition household_agreement (s : Store) : Prop :=
  forall p, In p (people s) ->
  forall h, person_householdId p = Some h
            <-> List.length (active_rows s h (person_id p)) = 1.

Definition resolves_household (s : Store) (h : Id) : bool :=
  existsb (fun x => (household_id x =? h) && negb (household_archived x))
          (households s).

Definition resolves_person (s : Store) (p : Id) : bool :=
  existsb (fun x => person_id x =? p) (people s).

(** Every id held in a relationship attribute resolves to a live entity. *)
Definition no_dangling (s : Store) : Prop :=
  (forall p, In p (people s) ->
     (forall t, In t (person_tagIds p) -> Person.resolves_tag s t = true)
     /\ (forall h, person_householdId p = Some h -> resolves_household s h = true))
  /\ (forall m, In m (householdMembers s) -> hm_archived m = false ->
        resolves_household s (hm_householdId m) = true
        /\ resolves_person s (hm_personId m) = true).

Definition integrity (s : Store) : Prop :=
  household_agreement s /\ no_dangling s.


(* ================================================================== *)
(** ** Sample records and stores used in the examples *)

Definition field_def (id : Id) (visibility : FieldVisibility) (orderIndex : Z)
  : ProfileFieldDefType :=
  {| pfd_id := id; pfd_organizationId := "1"; pfd_key := id; pfd_label := id;
     pfd_type := ft_text; pfd_options := []; pfd_required := false;
     pfd_visibility := visibility; pfd_archived := false;
     pfd_orderIndex := orderIndex; pfd_createdAt := 0; pfd_updatedAt := 0 |}.

(** Two public fields after the settings page swapped them by drag and drop:
    the response still lists [shirt_size] first, its [orderIndex] is now 1. *)
Definition reordered_fields : list ProfileFieldDefType :=
  [field_def "shirt_size" public 1; field_def "birthday" public 0].

Definition note_on (id person : Id) (visibility : NoteVisibility) (createdAt : Z)
  : NoteType :=
  {| note_id := id; note_organizationId := "1"; note_personId := person;
     note_authorUserId := "current-user-id"; note_body := "pastoral visit";
     note_visibility := visibility; note_createdAt := createdAt |}.

Definition tag_named (id : Id) (createdAt : Z) : TagType :=
  {| tag_id := id; tag_organizationId := "1"; tag_name := id;
     tag_color := None; tag_createdAt := createdAt; tag_archived := false |}.

Definition person_with (id : Id) (hh : option Id) (tagIds : list Id) : PersonType :=
  {| person_id := id; person_organizationId := "1";
     person_firstName := "Pat"; person_lastName := id;
     person_status := active; person_householdId := hh;
     person_tagIds := tagIds; person_createdAt := 0; person_updatedAt := 0 |}.

(** [Tag.list()] answering with the later-created tag first; one person
    carries both tags, so both counts are 1. *)
Definition tied_tags : list TagType :=
  [tag_named "youth" 200; tag_named "volunteer" 100].

Definition tied_people : list PersonType :=
  [person_with "p1" None ["volunteer"; "youth"]].

Definition household_named (id : Id) (name : string) : HouseholdType :=
  {| household_id := id; household_organizationId := "1";
     household_name := name; household_createdAt := 0;
     household_updatedAt := 0; household_archived := false |}.

Definition member_row (id h p : Id) (r : Relationship) : HouseholdMemberType :=
  {| hm_id := id; hm_organizationId := "1"; hm_householdId := h;
     hm_personId := p; hm_relationship := r; hm_archived := false |}.

(** Two households; person p1 is the head of the first, the second has no
    member, and person p2 belongs to no household. *)
Definition parish_store : Store :=
  {| people := [person_with "p1" (Some "h1") []; person_with "p2" None []];
     tags := [];
     households := [household_named "h1" "Smith"; household_named "h2" "Jones"];
     householdMembers := [member_row "hm-0" "h1" "p1" head];
     nextId := 1 |}.

(** The specification's scenario: tag "volunteer" is used by three people. *)
Definition volunteer_store : Store :=
  {| people := [person_with "p1" None ["volunteer"; "youth"];
                person_with "p2" None ["volunteer"];
                person_with "p3" None ["youth"; "volunteer"];
                person_with "p4" None []];
     tags := [tag_named "volunteer" 100; tag_named "youth" 200];
     households := [];
     householdMembers := [];
     nextId := 0 |}.

(** The same store once "volunteer" has been archived. *)
Definition volunteer_archived_store : Store :=
  {| people := [person_with "p1" None ["youth"];
                person_with "p2" None [];
                person_with "p3" None ["youth"];
                person_with "p4" None []];
     tags := [{| tag_id := "volunteer"; tag_organizationId := "1";
                 tag_name := "volunteer"; tag_color := None;
                 tag_createdAt := 100; tag_archived := true |};
              tag_named "youth" 200];
     households := [];
     householdMembers := [];
     nextId := 0 |}.

(* ================================================================== *)
(** ** Deleting a tag: the people after the loop, and a stale page *)



(* ================================================================== *)
(** ** Further components: guards, statistics and rosters *)

Module RoleGuard.

(** The props of the guard; [children] and [fallback] are what it renders. *)
Record Props (N : Type) := {
  children : N;
  allowedRoles : option (list Role);
  requireEdit : bool;
  requireSettings : bool;
  requireStaffOnly : bool;
  fallback : N
}.
Arguments children {N} _.
Arguments allowedRoles {N} _.
Arguments requireEdit {N} _.
Arguments requireSettings {N} _.
Arguments requireStaffOnly {N} _.
Arguments fallback {N} _.

(** The value of [hasAccess] after the four tests.  An array, even an empty
    one, is truthy, so a present [allowedRoles] is always consulted. *)
Definition hasAccess {N : Type} (userRole : Role) (props : Props N) : bool :=
  let p := usePermissions userRole in
  let hasAccess := true in
  let hasAccess :=
    match allowedRoles props with
    | Some l => if negb (roles_include l userRole) then false else hasAccess
    | None => hasAccess
    end in
  let hasAccess :=
    if requireEdit props && negb (canEdit p tt) then false else hasAccess in
  let hasAccess :=
    if requireSettings props && negb (canManageSettings p tt)
    then false else hasAccess in
  let hasAccess :=
    if requireStaffOnly props && negb (canViewStaffOnly p tt)
    then false else hasAccess in
  hasAccess.

Definition render {N : Type} (userRole : Role) (props : Props N) : N :=
  if negb (hasAccess userRole props) then fallback props else children props.

End RoleGuard.

(** [const isReadOnly = userRole === 'viewer'] of the person, household, tag
    and import pages, and the stricter test of the profile-field settings. *)
Definition isReadOnly (userRole : Role) : bool := Role_eqb userRole viewer.

Definition settings_isReadOnly (userRole : Role) : bool :=
  Role_eqb userRole viewer || Role_eqb userRole member.

(** The order of the four roles by privilege. *)
Definition role_rank (r : Role) : nat :=
  match r with viewer => 0 | member => 1 | admin => 2 | owner => 3 end.

Definition Status_eqb (a b : Status) : bool :=
  match a, b with
  | active, active | inactive, inactive | visitor, visitor => true
  | _, _ => false
  end.

Module DashboardStats.

Record t := {
  totalPeople : nat;
  activePeople : nat;
  inactivePeople : nat;
  visitorPeople : nat;
  peopleAddedThisMonth : nat;
  topTags : list Dashboard.TagWithCount
}.

(** The [stats] object of [loadDashboardData]; [currentMonth] is the first
    instant of the current month, computed from the clock. *)
Definition stats (currentMonth : Z) (people : list PersonType)
           (tags : list TagType) : t :=
  {| totalPeople := List.length people;
     activePeople :=
       List.length (filter (fun p => Status_eqb (person_status p) active) people);
     inactivePeople :=
       List.length (filter (fun p => Status_eqb (person_status p) inactive) people);
     visitorPeople :=
       List.length (filter (fun p => Status_eqb (person_status p) visitor) people);
     peopleAddedThisMonth :=
       List.length (filter (fun p => (currentMonth <=? person_createdAt p)%Z) people);
     topTags := Dashboard.topTags people tags |}.

End DashboardStats.

(** [arr.map(f).filter(Boolean)] for an [f] that yields an object or nothing. *)
Fixpoint map_filter_Boolean {A B : Type} (f : A -> option B) (l : list A) : list B :=
  match l with
  | [] => []
  | x :: xs =>
      match f x with
      | Some y => y :: map_filter_Boolean f xs
      | None => map_filter_Boolean f xs
      end
  end.

Module PersonTags.

(** [getPersonTags] of the person page. *)
Definition getPersonTags (person : option PersonType) (tags : list TagType)
  : list TagType :=
  match person with
  | Some p =>
      map_filter_Boolean
        (fun tagId => find (fun t => tag_id t =? tagId) tags)
        (person_tagIds p)
  | None => []
  end.

End PersonTags.

Module HouseholdRoster.

(** [HouseholdMemberWithPerson]: a member row with its person. *)
Record HouseholdMemberWithPerson := {
  row : HouseholdMemberType;
  person : PersonType
}.

(** The [members] that [loadData] of the household page sets, from the
    responses of [HouseholdMember.list()] and [Person.list()]. *)
Definition members (id : Id) (membersRes : list HouseholdMemberType)
           (peopleRes : list PersonType) : list HouseholdMemberWithPerson :=
  let householdMembers :=
    filter (fun member => hm_householdId member =? id) membersRes in
  map_filter_Boolean
    (fun member =>
       match find (fun p => person_id p =? hm_personId member) peopleRes with
       | Some person => Some {| row := member; person := person |}
       | None => None
       end)
    householdMembers.

End HouseholdRoster.

Module HouseholdsTable.

(** [HouseholdWithMembers]. *)
Record HouseholdWithMembers := {
  household : HouseholdType;
  memberCount : nat
}.

(** [householdsWithMembers] of the household list's [loadData]. *)
Definition householdsWithMembers (householdsRes : list HouseholdType)
           (membersRes : list HouseholdMemberType) : list HouseholdWithMembers :=
  map (fun household =>
         {| household := household;
            memberCount :=
              List.length
                (filter (fun member => hm_householdId member =? household_id household)
                        membersRes) |})
      householdsRes.

End HouseholdsTable.

(** The member counts of the table, added up. *)
Definition sum_memberCount (l : list HouseholdsTable.HouseholdWithMembers) : nat :=
  fold_right (fun h acc => HouseholdsTable.memberCount h + acc) 0 l.

Module TagsList.

(** [TagWithUsage]. *)
Record TagWithUsage := {
  tag : TagType;
  usageCount : nat
}.

(** [tagsWithUsage] of the tag page's [loadData]. *)
Definition tagsWithUsage (tagsRes : list TagType) (peopleRes : list PersonType)
  : list TagWithUsage :=
  map (fun tag =>
         {| tag := tag;
            usageCount :=
              List.length
                (filter (fun person => includes (person_tagIds person) (tag_id tag))
                        peopleRes) |})
      tagsRes.

End TagsList.

(* ================================================================== *)
(** ** The people list: bulk action *)

Module PeopleList.

(** The payload [{ status: 'inactive' }]. *)
Definition status_only (st : Status) : Person.Patch :=
  {| Person.status := Some st;
     Person.householdId := None;
     Person.tagIds := None |}.

(** What [handleBulkAction] leaves in the component: nothing happened (empty
    selection), the selection was cleared after the loop, or the error was
    set. *)
Inductive BulkResult :=
  | bulk_skipped
  | bulk_cleared
  | bulk_error (msg : string).

Definition handleBulkAction (selectedRowKeys : list Id) (action : string)
  : Task BulkResult :=
  if Nat.eqb (List.length selectedRowKeys) 0 then ret bulk_skipped
  else
    try_catch
      ((if action =? "inactivate"
        then for_of selectedRowKeys (fun personId =>
               _ <- Person.update personId (status_only inactive) ;; ret tt)
        else ret tt) ;;
       ret bulk_cleared)
      (fun err => ret (bulk_error err)).

(** A person of the list with the optional attributes that the search
    reads. *)
Record PersonRow := {
  core : PersonType;
  preferredName : option string;
  email : option string;
  phone : option string
}.

(** [String.prototype.includes]: whether [q] occurs in [s]. *)
Fixpoint js_includes (s q : string) : bool :=
  String.prefix q s
  || match s with
     | EmptyString => false
     | String _ rest => js_includes rest q
     end.

(** [filteredPeople]; [toLowerCase] is the runtime's
    [String.prototype.toLowerCase]. *)
Definition filteredPeople (toLowerCase : string -> string)
           (people : list PersonRow) (searchQuery : string)
           (statusFilter : option Status) (tagFilter : list Id) : list PersonRow :=
  filter (fun person =>
            let matchesSearch :=
              negb (truthy (Some searchQuery))
              || js_includes (toLowerCase (person_firstName (core person)))
                             (toLowerCase searchQuery)
              || js_includes (toLowerCase (person_lastName (core person)))
                             (toLowerCase searchQuery)
              || match email person with
                 | Some e => js_includes (toLowerCase e) (toLowerCase searchQuery)
                 | None => false
                 end
              || match phone person with
                 | Some ph => js_includes ph searchQuery
                 | None => false
                 end in
            let matchesStatus :=
              match statusFilter with
              | None => true
              | Some st => Status_eqb (person_status (core person)) st
              end in
            let matchesTags :=
              Nat.eqb (List.length tagFilter) 0
              || existsb (fun tagId => includes (person_tagIds (core person)) tagId)
                         tagFilter in
            matchesSearch && matchesStatus && matchesTags)
         people.

End PeopleList.

(* ================================================================== *)
(** ** Frame conditions on the store *)

(** Every run of [t], whatever the fates, relates the store before to the
    store after by [R]. *)
Definition keeps {A : Type} (R : Store -> Store -> Prop) (t : Task A) : Prop :=
  forall w, R (store w) (store (fst (t w))).

(** No entity has gone and none has changed its id; member rows may have
    been appended. *)
Definition same_entities (s s' : Store) : Prop :=
  map person_id (people s') = map person_id (people s)
  /\ map tag_id (tags s') = map tag_id (tags s)
  /\ map household_id (households s') = map household_id (households s)
  /\ exists added,
       map hm_id (householdMembers s')
       = (map hm_id (householdMembers s) ++ added)%list.

(** A person with the tag ids blanked out. *)
Definition sans_tagIds (p : PersonType) : PersonType :=
  Person.merge (Tags.tagIds_only []) p.

(** Between [s] and [s'] nothing but people's [tagIds] and the tag
    collection may differ. *)
Definition only_tags_touched (s s' : Store) : Prop :=
  map sans_tagIds (people s') = map sans_tagIds (people s)
  /\ households s' = households s
  /\ householdMembers s' = householdMembers s
  /\ nextId s' = nextId s.


(* ================================================================== *)
(** ** Import: reading the uploaded file *)

Module ImportExport.

(** [String.prototype.split] with a one-character separator.  The two
    separators used, comma and line feed, are single bytes that occur in no
    multi-byte character, so splitting the bytes splits the text. *)
Fixpoint split (sep : ascii) (s : string) : list string :=
  match s with
  | EmptyString => [EmptyString]
  | String c rest =>
      if Ascii.eqb c sep then EmptyString :: split sep rest
      else match split sep rest with
           | [] => [String c EmptyString]
           | cell :: cells => String c cell :: cells
           end
  end.

Definition comma : ascii := ","%char.

(** The line feed of ['\n']. *)
Definition newline : ascii := Ascii.ascii_of_nat 10.

(** What the [onload] callback of [handleFileUpload] sets. *)
Record Parsed := {
  csvHeaders : list string;
  csvData : list (list string);
  currentStep : nat
}.

Definition handleFileUpload (text : string) : Parsed :=
  let rows := map (fun row => split comma row) (split newline text) in
  let headers := hd [] rows in
  let data := filter (fun row => Nat.ltb 1 (List.length row)) (tl rows) in
  {| csvHeaders := headers; csvData := data; currentStep := 1 |}.

(** [Array.prototype.indexOf]: the first position, or -1. *)
Fixpoint indexOf (l : list string) (x : string) : Z :=
  match l with
  | [] => (-1)%Z
  | y :: ys =>
      if y =? x then 0%Z
      else let i := indexOf ys x in if (i <? 0)%Z then (-1)%Z else (i + 1)%Z
  end.

(** [columnMapping] is a plain object: its own properties are the headers
    for which a choice was made, each with the chosen value, the empty
    string standing for "Skip this column". *)
Definition ColumnMapping := list (string * string).

(** The properties a plain object inherits from [Object.prototype]; each of
    them is a function or an object. *)
Definition Object_prototype : list string :=
  ["constructor"; "__defineGetter__"; "__defineSetter__"; "hasOwnProperty";
   "__lookupGetter__"; "__lookupSetter__"; "isPrototypeOf";
   "propertyIsEnumerable"; "toString"; "valueOf"; "__proto__";
   "toLocaleString"].

(** What reading [columnMapping[header]] gives: the value of an own
    property, a member of [Object.prototype], or [undefined]. *)
Inductive JsValue :=
| own_value (value : string)
| inherited (name : string)
| undefined.

Fixpoint own_property (columnMapping : ColumnMapping) (header : string)
  : option string :=
  match columnMapping with
  | [] => None
  | (name, value) :: rest =>
      if name =? header then Some value else own_property rest header
  end.

(** [columnMapping[header]]: own properties first, then the prototype. *)
Definition get (columnMapping : ColumnMapping) (header : string) : JsValue :=
  match own_property columnMapping header with
  | Some value => own_value value
  | None =>
      if includes Object_prototype header then inherited header else undefined
  end.

(** Truthiness: a string is truthy unless empty, functions and objects are
    truthy, [undefined] is not. *)
Definition js_truthy (v : JsValue) : bool :=
  match v with
  | own_value value => truthy (Some value)
  | inherited _ => true
  | undefined => false
  end.

(** [setColumnMapping(prev => ({ ...prev, [header]: value }))]: the computed
    key always defines an own property. *)
Fixpoint setColumnMapping (prev : ColumnMapping) (header value : string)
  : ColumnMapping :=
  match prev with
  | [] => [(header, value)]
  | (name, old) :: rest =>
      if name =? header then (name, value) :: rest
      else (name, old) :: setColumnMapping rest header value
  end.

(** A column of the preview table. *)
Record Column := {
  title : JsValue;
  dataIndex : Z;
  key : string
}.

(** The preview's [columns]. *)
Definition previewColumns (csvHeaders : list string)
           (columnMapping : ColumnMapping) : list Column :=
  map (fun header =>
         {| title := get columnMapping header;
            dataIndex := indexOf csvHeaders header;
            key := header |})
      (filter (fun header => js_truthy (get columnMapping header)) csvHeaders).

End ImportExport.

(** Whether character [c] occurs in [s]. *)
Fixpoint has_char (c : ascii) (s : string) : bool :=
  match s with
  | EmptyString => false
  | String d rest => Ascii.eqb d c || has_char c rest
  end.

(** A table written out as text: cells joined by commas, lines by line
    feeds. *)
Definition csv_text (table : list (list string)) : string :=
  String.concat (String ImportExport.newline EmptyString)
    (map (String.concat (String ImportExport.comma EmptyString)) table).

(* ================================================================== *)
(** ** Profile-field settings: reordering by drag and drop *)

Module ProfileFieldDef.

(** The attributes the settings page supplies to [ProfileFieldDef.update]
    when it reorders or archives. *)
Record Patch := {
  orderIndex : option Z;
  archived : option bool
}.

Definition merge (patch : Patch) (f : ProfileFieldDefType) : ProfileFieldDefType :=
  {| pfd_id := pfd_id f;
     pfd_organizationId := pfd_organizationId f;
     pfd_key := pfd_key f;
     pfd_label := pfd_label f;
     pfd_type := pfd_type f;
     pfd_options := pfd_options f;
     pfd_required := pfd_required f;
     pfd_visibility := pfd_visibility f;
     pfd_archived := or_keep (archived patch) (pfd_archived f);
     pfd_orderIndex := or_keep (orderIndex patch) (pfd_orderIndex f);
     pfd_createdAt := pfd_createdAt f;
     pfd_updatedAt := pfd_updatedAt f |}.

(** The stored field definitions with the fates of the requests to come. *)
Record World := {
  stored : list ProfileFieldDefType;
  fates : list Fate
}.

Definition Task (A : Type) : Type := World -> World * (string + A).

Definition ret {A : Type} (a : A) : Task A := fun w => (w, inr a).

Definition throw {A : Type} (msg : string) : Task A := fun w => (w, inl msg).

Definition bind {A B : Type} (m : Task A) (k : A -> Task B) : Task B :=
  fun w =>
    match m w with
    | (w', inl e) => (w', inl e)
    | (w', inr a) => k a w'
    end.

Definition try_catch {A : Type} (body : Task A) (handler : string -> Task A)
  : Task A :=
  fun w =>
    match body w with
    | (w', inl e) => handler e w'
    | (w', inr a) => (w', inr a)
    end.

Definition request {T : Type}
           (op : list ProfileFieldDefType -> list ProfileFieldDefType * ApiResponse T)
  : Task (ApiResponse T) :=
  fun w =>
    match fates w with
    | [] =>
        let (l, r) := op (stored w) in ({| stored := l; fates := [] |}, inr r)
    | Deliver :: fs =>
        let (l, r) := op (stored w) in ({| stored := l; fates := fs |}, inr r)
    | Reject :: fs =>
        ({| stored := stored w; fates := fs |}, inr (failure "Internal error"))
    | Throw :: fs =>
        ({| stored := stored w; fates := fs |}, inl "Network error")
    end.

(** Modelled from the spec: [ProfileFieldDef.update] of the missing entity
    layer, a partial merge by id (section 4.2) with the result envelope of
    section 6. *)
Definition update_store (id : Id) (patch : Patch) (l : list ProfileFieldDefType)
  : list ProfileFieldDefType * ApiResponse ProfileFieldDefType :=
  match find (fun f => pfd_id f =? id) l with
  | None => (l, failure "ReferenceError: field not found")
  | Some f => (update_where pfd_id (merge patch) id l, ok (merge patch f))
  end.

Definition update (id : Id) (patch : Patch)
  : Task (ApiResponse ProfileFieldDefType) :=
  request (update_store id patch).

(** Modelled from the spec: [ProfileFieldDef.list] of the missing entity
    layer; it returns the stored definitions, archived ones included (the
    pages filter them out themselves). *)
Definition list : Task (ApiResponse (list ProfileFieldDefType)) :=
  request (fun l => (l, ok l)).

End ProfileFieldDef.

Module FieldOrder.

(** [Array.prototype.findIndex] for the test [field._id === id]; [None]
    stands for -1. *)
Fixpoint findIndex (fields : list ProfileFieldDefType) (id : Id) : option nat :=
  match fields with
  | [] => None
  | f :: fs =>
      if pfd_id f =? id then Some 0
      else match findIndex fs id with
           | Some i => Some (S i)
           | None => None
           end
  end.

(** [arrayMove] of the drag-and-drop library for positions inside the array:
    the element at [from] is taken out and put back at [to]. *)
Definition arrayMove {A : Type} (array : list A) (from to : nat) : list A :=
  match nth_error array from with
  | Some x =>
      let rest := (firstn from array ++ skipn (S from) array)%list in
      (firstn to rest ++ x :: skipn to rest)%list
  | None => array
  end.

(** What the page holds after a handler: the rows shown, the toast, and the
    error set by a failed load. *)
Record Page := {
  fields : list ProfileFieldDefType;
  toast : option Toast;
  error : option string
}.

(** What the component returns once no load is under way: with an error
    set, the error alert and nothing else; otherwise the page with the table
    of [fields]. *)
Inductive View :=
| error_alert (description : string)
| fields_table (dataSource : list ProfileFieldDefType).

Definition render (page : Page) : View :=
  if truthy (error page)
  then match error page with
       | Some description => error_alert description
       | None => fields_table (fields page)
       end
  else fields_table (fields page).

(** [for (let i = 0; i < newFields.length; i++) await update(newFields[i]._id,
    { orderIndex: i })], from position [i] on. *)
Fixpoint reindex_from (i : nat) (newFields : list ProfileFieldDefType) : ProfileFieldDef.Task unit :=
  match newFields with
  | [] => ProfileFieldDef.ret tt
  | f :: rest =>
      ProfileFieldDef.bind
        (ProfileFieldDef.update (pfd_id f)
           {| ProfileFieldDef.orderIndex := Some (Z.of_nat i);
              ProfileFieldDef.archived := None |})
        (fun _ => reindex_from (S i) rest)
  end.

(** [loadData] of the settings page, started with [shown] on display. *)
Definition loadData (shown : list ProfileFieldDefType) (t : option Toast)
  : ProfileFieldDef.Task Page :=
  ProfileFieldDef.try_catch
    (ProfileFieldDef.bind ProfileFieldDef.list (fun response =>
       if negb (success response) then ProfileFieldDef.throw (message response)
       else ProfileFieldDef.ret
              {| fields := match data response with
                           | Some l => ProfileFields.sortedFields l
                           | None => shown
                           end;
                 toast := t;
                 error := None |}))
    (fun err =>
       ProfileFieldDef.ret {| fields := shown; toast := t; error := Some err |}).

(** [handleDragEnd] for a drop of row [active] on row [over].  The library
    reports ids of the rows it was given; for an id that is not among
    [fields] the source makes no provision and the model gives [None]. *)
Definition handleDragEnd (fields : list ProfileFieldDefType) (active over : Id)
  : option (ProfileFieldDef.Task Page) :=
  if negb (active =? over) then
    match findIndex fields active, findIndex fields over with
    | Some oldIndex, Some newIndex =>
        let newFields := arrayMove fields oldIndex newIndex in
        Some (ProfileFieldDef.try_catch
                (ProfileFieldDef.bind (reindex_from 0 newFields) (fun _ =>
                   ProfileFieldDef.ret
                     {| FieldOrder.fields := newFields;
                        toast := Some (message_success "Field order updated");
                        error := None |}))
                (fun _ =>
                   loadData newFields
                     (Some (message_error "Failed to update field order"))))
    | _, _ => None
    end
  else Some (ProfileFieldDef.ret
               {| FieldOrder.fields := fields; toast := None; error := None |}).

End FieldOrder.

(** The field [f] with its [orderIndex] replaced. *)
Definition at_position (i : Z) (f : ProfileFieldDefType) : ProfileFieldDefType :=
  ProfileFieldDef.merge
    {| ProfileFieldDef.orderIndex := Some i; ProfileFieldDef.archived := None |} f.

(** The fields numbered in their order, from [i] on. *)
Fixpoint numbered (i : nat) (l : list ProfileFieldDefType) : list ProfileFieldDefType :=
  match l with
  | [] => []
  | f :: rest => at_position (Z.of_nat i) f :: numbered (S i) rest
  end.

(** The stored definitions after the delivered writes of the loop over
    [newFields], started at position [i]. *)
Fixpoint renumbered (i : nat) (newFields l : list ProfileFieldDefType)
  : list ProfileFieldDefType :=
  match newFields with
  | [] => l
  | f :: rest =>
      renumbered (S i) rest
        (update_where pfd_id (at_position (Z.of_nat i)) (pfd_id f) l)
  end.

(** The field-definition world in which every request is delivered. *)
Definition quiet_fields (l : list ProfileFieldDefType) : ProfileFieldDef.World :=
  {| ProfileFieldDef.stored := l; ProfileFieldDef.fates := [] |}.

(* ================================================================== *)
(** * Properties *)

(** ** The stable sort *)

Section JsSortFacts.
Context {A : Type} (cmp : A -> A -> Z).

Lemma js_insert_perm (x : A) (l : list A) :
  Permutation (js_insert cmp x l) (x :: l).
Proof.
  induction l as [|y ys IH]; simpl.
  - apply Permutation_refl.
  - destruct (cmp x y <=? 0)%Z.
    + apply Permutation_refl.
    + eapply perm_trans; [apply perm_skip, IH | apply perm_swap].
Qed.

Lemma js_sort_perm (l : list A) : Permutation (js_sort cmp l) l.
Proof.
  induction l as [|x xs IH]; simpl.
  - apply perm_nil.
  - eapply perm_trans; [apply js_insert_perm | apply perm_skip, IH].
Qed.

Lemma js_sort_In (l : list A) (x : A) : In x (js_sort cmp l) <-> In x l.
Proof.
  split; apply Permutation_in;
    [apply js_sort_perm | apply Permutation_sym, js_sort_perm].
Qed.

(** Elements selected by [keep] that compare as equal among themselves stay
    in their original relative order. *)
Section Stable.
Variable keep : A -> bool.
Hypothesis keep_tied :
  forall x y, keep x = true -> keep y = true -> (cmp x y <= 0)%Z.

Lemma js_insert_stable (x : A) (l : list A) :
  filter keep (js_insert cmp x l) = filter keep (x :: l).
Proof.
  induction l as [|y ys IH]; [reflexivity|].
  simpl js_insert. destruct (cmp x y <=? 0)%Z eqn:E; [reflexivity|].
  apply Z.leb_gt in E.
  simpl filter in *. rewrite IH.
  destruct (keep x) eqn:Kx, (keep y) eqn:Ky; try reflexivity.
  specialize (keep_tied x y Kx Ky). lia.
Qed.

Lemma js_sort_stable (l : list A) :
  filter keep (js_sort cmp l) = filter keep l.
Proof.
  induction l as [|x xs IH]; [reflexivity|].
  simpl js_sort. rewrite js_insert_stable. simpl. now rewrite IH.
Qed.
End Stable.

(** With a comparator that is total and transitive the result is sorted. *)
Section Ordered.
Hypothesis cmp_total : forall x y, (0 < cmp x y)%Z -> (cmp y x <= 0)%Z.
Hypothesis cmp_trans :
  forall x y z, (cmp x y <= 0)%Z -> (cmp y z <= 0)%Z -> (cmp x z <= 0)%Z.

Lemma js_insert_sorted (x : A) (l : list A) :
  StronglySorted (js_before cmp) l -> StronglySorted (js_before cmp) (js_insert cmp x l).
Proof.
  unfold js_before. induction 1 as [|y ys Hs IH Hall]; simpl.
  - constructor; constructor.
  - destruct (cmp x y <=? 0)%Z eqn:E.
    + apply Z.leb_le in E. constructor.
      * constructor; assumption.
      * constructor; [exact E|].
        eapply Forall_impl; [|exact Hall].
        intros z Hz. eapply cmp_trans; eassumption.
    + apply Z.leb_gt in E. constructor; [exact IH|].
      apply Forall_forall. intros z Hz.
      apply (Permutation_in _ (js_insert_perm x ys)) in Hz.
      destruct Hz as [<-|Hz].
      * apply cmp_total, E.
      * rewrite Forall_forall in Hall. now apply Hall.
Qed.

Lemma js_sort_sorted (l : list A) :
  StronglySorted (js_before cmp) (js_sort cmp l).
Proof.
  induction l as [|x xs IH]; simpl.
  - constructor.
  - now apply js_insert_sorted.
Qed.
End Ordered.
End JsSortFacts.

(** ** Permissions *)

(** C10. The role-to-capability mapping of [usePermissions] is exact:
    [canView] holds for every role; [canEdit], [canDelete] and
    [canViewStaffOnly] hold exactly for owner, admin and member;
    [canManageSettings] exactly for owner and admin; and
    [canManageOrganization] exactly for owner. *)
Theorem usePermissions_exact (r : Role) :
  let p := usePermissions r in
  canView p tt = true
  /\ (canEdit p tt = true <-> r = owner \/ r = admin \/ r = member)
  /\ (canDelete p tt = true <-> r = owner \/ r = admin \/ r = member)
  /\ (canViewStaffOnly p tt = true <-> r = owner \/ r = admin \/ r = member)
  /\ (canManageSettings p tt = true <-> r = owner \/ r = admin)
  /\ (canManageOrganization p tt = true <-> r = owner).
Proof.
  destruct r; cbn; repeat split; intros H;
    try reflexivity; try discriminate; auto;
    repeat (destruct H as [H|H]); discriminate.
Qed.

(** ** Visible profile fields *)

Lemma Role_eqb_eq (a b : Role) : Role_eqb a b = true <-> a = b.
Proof. destruct a, b; cbn; split; intros H; try reflexivity; discriminate. Qed.

(** Which definitions [visibleFields] keeps: the non-archived ones that are
    public or whose reader is not a viewer. *)
Lemma visibleFields_keeps (r : Role) (fieldsRes : list ProfileFieldDefType)
      (f : ProfileFieldDefType) :
  In f (PersonProfile.visibleFields r fieldsRes)
  <-> In f fieldsRes /\ pfd_archived f = false
      /\ (pfd_visibility f = public \/ r <> viewer).
Proof.
  unfold PersonProfile.visibleFields. rewrite filter_In.
  rewrite andb_true_iff, negb_true_iff, orb_true_iff, negb_true_iff.
  assert (Hvis : FieldVisibility_is_public (pfd_visibility f) = true
                 <-> pfd_visibility f = public)
    by (destruct (pfd_visibility f); cbn; split; congruence).
  assert (Hrole : Role_eqb r viewer = false <-> r <> viewer).
  { rewrite <- Role_eqb_eq. destruct (Role_eqb r viewer); split; congruence. }
  rewrite Hvis, Hrole. tauto.
Qed.

Lemma visibleFields_same_in_form (r : Role) (fieldsRes : list ProfileFieldDefType) :
  PersonForm.visibleFields r fieldsRes = PersonProfile.visibleFields r fieldsRes.
Proof. reflexivity. Qed.

(** C8, at the failing input.  [visibleFields] returns the response of
    [ProfileFieldDef.list()] filtered but not sorted: for two public fields
    listed with [orderIndex] 1 then 0, every role gets them in that order,
    which is not ascending, whereas the settings page's [sortedFields] puts
    them in [orderIndex] order. *)
Theorem visibleFields_not_in_orderIndex_order :
  (forall r, PersonProfile.visibleFields r reordered_fields = reordered_fields)
  /\ (forall r, PersonForm.visibleFields r reordered_fields = reordered_fields)
  /\ map pfd_orderIndex (PersonProfile.visibleFields viewer reordered_fields)
     = [1; 0]%Z
  /\ ~ Sorted Z.le (map pfd_orderIndex
                        (PersonProfile.visibleFields viewer reordered_fields))
  /\ map pfd_orderIndex (ProfileFields.sortedFields reordered_fields) = [0; 1]%Z.
Proof.
  split; [intros []; reflexivity|].
  split; [intros []; reflexivity|].
  split; [reflexivity|].
  split; [|reflexivity].
  cbn. intros H. inversion H as [|? ? _ Hd]; subst.
  inversion Hd as [|? ? Hle]; subst. lia.
Qed.

(** ** Notes shown to a viewer *)

(** Every note of the person is in the list [loadData] sets, whatever the
    role and whatever the note's visibility. *)
Lemma personNotes_keeps_every_note (r : Role) (id : Id)
      (fieldsRes : list ProfileFieldDefType) (notesRes : list NoteType)
      (n : NoteType) :
  In n (PersonProfile.notes (PersonProfile.loadData r id fieldsRes notesRes))
  <-> In n notesRes /\ note_personId n = id.
Proof.
  cbn. unfold PersonProfile.personNotes.
  rewrite js_sort_In, filter_In, String.eqb_eq. tauto.
Qed.

(** C6, at the failing input.  For role viewer the notes list of the person
    page and the recent notes of the dashboard both contain a note whose
    visibility is staff_only. *)
Theorem viewer_is_shown_staff_only_notes :
  let n := note_on "n1" "p1" staff_only 1000 in
  note_visibility n = staff_only
  /\ canViewStaffOnly (usePermissions viewer) tt = false
  /\ PersonProfile.notes (PersonProfile.loadData viewer "p1" [] [n]) = [n]
  /\ Dashboard.recentNotes [n] = [n].
Proof. repeat split. Qed.

(** ** The dashboard's top tags *)

Lemma StronglySorted_weaken {A : Type} (R Q : A -> A -> Prop) (l : list A) :
  (forall a b, R a b -> Q a b) -> StronglySorted R l -> StronglySorted Q l.
Proof.
  intros HRQ. induction 1 as [|x xs _ IH Hall]; constructor; [exact IH|].
  eapply Forall_impl; [|exact Hall]. intros b. apply HRQ.
Qed.

Lemma byCountDesc_le (a b : Dashboard.TagWithCount) :
  (Dashboard.byCountDesc a b <= 0)%Z <-> Dashboard.count b <= Dashboard.count a.
Proof. unfold Dashboard.byCountDesc. lia. Qed.

Lemma rankedTags_sorted (people : list PersonType) (tags : list TagType) :
  StronglySorted (fun a b => Dashboard.count b <= Dashboard.count a)
                 (Dashboard.rankedTags people tags).
Proof.
  unfold Dashboard.rankedTags.
  eapply StronglySorted_weaken;
    [| apply (js_sort_sorted Dashboard.byCountDesc)].
  - intros a b H. now apply byCountDesc_le.
  - intros x y. unfold Dashboard.byCountDesc. lia.
  - intros x y z. unfold Dashboard.byCountDesc. lia.
Qed.

(** C7, as the specification states it, fails: [Tag.list()] answers with
    "youth" (created at 200) before "volunteer" (created at 100), both used
    once; the top tags keep that order, so the later-created tag ranks
    higher. *)
Lemma topTags_ties_ignore_createdAt :
  map (fun e => (tag_id (Dashboard.tc_tag e), Dashboard.count e))
      (Dashboard.topTags tied_people tied_tags)
  = [("youth", 1); ("volunteer", 1)]
  /\ ~ ties_by_createdAt (Dashboard.topTags tied_people tied_tags).
Proof.
  split; [reflexivity|].
  intros H.
  specialize (H 0 1 _ _ (Nat.lt_0_1) eq_refl eq_refl eq_refl).
  cbn in H. lia.
Qed.

(** C7, amended.  The top tags are the first five entries of the tags paired
    with their usage counts and sorted by count, highest first, by a stable
    sort: the ranking is a permutation of the listed tags, counts never
    increase along it, entries with equal counts keep the order in which
    [Tag.list()] returned them, and no entry left out has a higher count than
    one that was taken. *)
Theorem topTags_stable_ranking (people : list PersonType) (tags : list TagType) :
  let listed := map (Dashboard.withCount people) tags in
  let ranked := Dashboard.rankedTags people tags in
  Dashboard.topTags people tags = firstn 5 ranked
  /\ Permutation ranked listed
  /\ StronglySorted (fun a b => Dashboard.count b <= Dashboard.count a) ranked
  /\ (forall c, filter (fun e => Nat.eqb (Dashboard.count e) c) ranked
                = filter (fun e => Nat.eqb (Dashboard.count e) c) listed)
  /\ (forall x y, In x (Dashboard.topTags people tags) ->
                  In y (skipn 5 ranked) ->
                  Dashboard.count y <= Dashboard.count x).
Proof.
  cbv zeta. split; [reflexivity|].
  split; [apply js_sort_perm|].
  split; [apply rankedTags_sorted|].
  split.
  - intros c. unfold Dashboard.rankedTags. apply js_sort_stable.
    intros x y Hx Hy. apply Nat.eqb_eq in Hx, Hy.
    unfold Dashboard.byCountDesc. lia.
  - intros x y Hx Hy. unfold Dashboard.topTags, slice0 in Hx.
    pose proof (rankedTags_sorted people tags) as Hs.
    rewrite <- (firstn_skipn 5 (Dashboard.rankedTags people tags)) in Hs.
    revert Hs Hx Hy.
    generalize (firstn 5 (Dashboard.rankedTags people tags)) as front.
    generalize (skipn 5 (Dashboard.rankedTags people tags)) as back.
    intros back front. induction front as [|z zs IH]; intros Hs Hx Hy.
    + destruct Hx.
    + cbn in Hs. inversion Hs as [|? ? Hs' Hall]; subst.
      destruct Hx as [->|Hx].
      * rewrite Forall_forall in Hall. apply Hall.
        apply in_or_app. now right.
      * now apply IH.
Qed.

(** ** Requests and partial merges *)

Lemma request_quiet {T : Type} (op : Store -> Store * ApiResponse T) (s : Store) :
  request op (quiet s) = (quiet (fst (op s)), inr (snd (op s))).
Proof. unfold request, quiet. cbn. now destruct (op s). Qed.

Lemma update_where_In {E : Type} (id_of : E -> Id) (merge : E -> E)
      (id : Id) (l : list E) (r : E) :
  In r (update_where id_of merge id l)
  <-> exists e, In e l /\ r = (if id_of e =? id then merge e else e).
Proof.
  unfold update_where. rewrite in_map_iff.
  split; intros (e & H1 & H2); exists e; auto.
Qed.

(** Merging leaves the list as it is when the merge changes no entity that
    carries the id. *)
Lemma update_where_fixed {E : Type} (id_of : E -> Id) (merge : E -> E)
      (id : Id) (l : list E) :
  (forall e, In e l -> id_of e = id -> merge e = e) ->
  update_where id_of merge id l = l.
Proof.
  intros H. unfold update_where.
  rewrite <- (map_id l) at 2. apply map_ext_in.
  intros e He. destruct (id_of e =? id) eqn:Heq; [|reflexivity].
  apply String.eqb_eq in Heq. now apply H.
Qed.

Lemma find_none_update_where {E : Type} (id_of : E -> Id) (merge : E -> E)
      (id : Id) (l : list E) :
  find (fun e => id_of e =? id) l = None ->
  update_where id_of merge id l = l.
Proof.
  intros H. apply update_where_fixed. intros e He Hid.
  apply (find_none _ _ H) in He. rewrite Hid, String.eqb_refl in He.
  discriminate.
Qed.

(** A merge that keeps ids keeps the outcome of a lookup by id. *)
Lemma find_update_where_some {E : Type} (id_of : E -> Id) (merge : E -> E)
      (id id' : Id) (l : list E) :
  (forall e, id_of (merge e) = id_of e) ->
  find (fun e => id_of e =? id') l <> None ->
  find (fun e => id_of e =? id') (update_where id_of merge id l) <> None.
Proof.
  intros Hid. induction l as [|e l IH]; cbn; [auto|].
  assert (Hsame : id_of (if id_of e =? id then merge e else e) = id_of e)
    by (destruct (id_of e =? id); auto).
  rewrite Hsame. destruct (id_of e =? id'); [discriminate | exact IH].
Qed.

Lemma In_find_some {E : Type} (id_of : E -> Id) (l : list E) (e : E) :
  In e l -> find (fun x => id_of x =? id_of e) l <> None.
Proof.
  intros He Hnone. apply (find_none _ _ Hnone) in He.
  rewrite String.eqb_refl in He. discriminate.
Qed.

Lemma request_deliver {T : Type} (op : Store -> Store * ApiResponse T)
      (s : Store) (fs : list Fate) :
  request op {| store := s; fates := Deliver :: fs |}
  = ({| store := fst (op s); fates := fs |}, inr (snd (op s))).
Proof. unfold request. cbn. now destruct (op s). Qed.

Lemma request_reject {T : Type} (op : Store -> Store * ApiResponse T)
      (s : Store) (fs : list Fate) :
  request op {| store := s; fates := Reject :: fs |}
  = ({| store := s; fates := fs |}, inr (failure "Internal error")).
Proof. reflexivity. Qed.

Lemma request_throw {T : Type} (op : Store -> Store * ApiResponse T)
      (s : Store) (fs : list Fate) :
  request op {| store := s; fates := Throw :: fs |}
  = ({| store := s; fates := fs |}, inl "Network error").
Proof. reflexivity. Qed.

(** What each update leaves in the store.  A call that finds no entity with
    the id leaves the store as it was, and so does the merge over a list in
    which no entity carries the id. *)
Lemma Person_update_store_fst (id : Id) (patch : Person.Patch) (s : Store) :
  Person.tagIds patch = None ->
  fst (Person.update_store id patch s)
  = with_people s (update_where person_id (Person.merge patch) id (people s)).
Proof.
  intros Hp. unfold Person.update_store. rewrite Hp.
  destruct (find _ (people s)) eqn:F; cbn; [reflexivity|].
  rewrite (find_none_update_where person_id _ _ _ F). now destruct s.
Qed.

Lemma HouseholdMember_update_store_fst (id : Id) (patch : HouseholdMember.Patch)
      (s : Store) :
  fst (HouseholdMember.update_store id patch s)
  = with_householdMembers s
      (update_where hm_id (HouseholdMember.merge patch) id (householdMembers s)).
Proof.
  unfold HouseholdMember.update_store.
  destruct (find _ (householdMembers s)) eqn:F; cbn; [reflexivity|].
  rewrite (find_none_update_where hm_id _ _ _ F). now destruct s.
Qed.


Lemma TagEntity_update_store_fst (id : Id) (patch : TagEntity.Patch) (s : Store) :
  fst (TagEntity.update_store id patch s)
  = with_tags s (update_where tag_id (TagEntity.merge patch) id (tags s)).
Proof.
  unfold TagEntity.update_store.
  destruct (find _ (tags s)) eqn:F; cbn; [reflexivity|].
  rewrite (find_none_update_where tag_id _ _ _ F). now destruct s.
Qed.

(** ** Removing a household member *)



(** ** Adding a household member *)

Lemma availablePeople_offers (allPeople : list PersonType) (p : PersonType) :
  In p (HouseholdDetail.availablePeople allPeople None)
  <-> In p allPeople /\ truthy (person_householdId p) = false.
Proof.
  unfold HouseholdDetail.availablePeople.
  rewrite filter_In, negb_true_iff. tauto.
Qed.

(** C3, as the specification states it, fails.  Person p1 belongs to
    household h1; the handler, asked to add p1 to h2, makes no check: it
    reports success, h2 gains a row for p1, h1 keeps its row, and p1 now
    points at h2.  And the two writes are not atomic: adding p2 to h2 with
    the second request throwing leaves the new row in place while p2 has no
    [householdId]. *)
Lemma handleAddEditMember_no_conflict_check :
  let add_p1 :=
    HouseholdDetail.handleAddEditMember (Some "h2") "1" None
      {| HouseholdDetail.personId := "p1"; HouseholdDetail.relationship := other |}
      (quiet parish_store) in
  let add_p2 :=
    HouseholdDetail.handleAddEditMember (Some "h2") "1" None
      {| HouseholdDetail.personId := "p2"; HouseholdDetail.relationship := child |}
      {| store := parish_store; fates := [Deliver; Throw] |} in
  (snd add_p1 = inr (Some (message_success "Member added successfully"))
   /\ active_rows (store (fst add_p1)) "h2" "p1"
      = [member_row "hm-1" "h2" "p1" other]
   /\ active_rows (store (fst add_p1)) "h1" "p1"
      = [member_row "hm-0" "h1" "p1" head]
   /\ map person_householdId (people (store (fst add_p1))) = [Some "h2"; None])
  /\ (snd add_p2 = inr (Some (message_error "Network error"))
      /\ active_rows (store (fst add_p2)) "h2" "p2"
         = [member_row "hm-1" "h2" "p2" child]
      /\ map person_householdId (people (store (fst add_p2))) = [Some "h1"; None]).
Proof. cbv zeta. repeat split. Qed.

(** C3, amended.  The member form offers for adding only the people whose
    [householdId] is unset, so a person already in a household cannot be
    picked; the handler makes no check of its own.  When both requests are
    delivered, adding a person to household [h] creates the member row and
    then sets the person's [householdId] to [h] and reports success; the two
    are separate requests, and when the second throws the created row stays,
    the person is unchanged and the error is reported. *)
Theorem handleAddEditMember_add (s : Store) (allPeople : list PersonType)
        (h organizationId : Id) (values : HouseholdDetail.Values) :
  truthy (Some h) = true ->
  let row := {| hm_id := HouseholdMember.fresh_id (nextId s);
                hm_organizationId := organizationId;
                hm_householdId := h;
                hm_personId := HouseholdDetail.personId values;
                hm_relationship := HouseholdDetail.relationship values;
                hm_archived := false |} in
  let created := {| people := people s;
                    tags := tags s;
                    households := households s;
                    householdMembers := householdMembers s ++ [row];
                    nextId := S (nextId s) |} in
  let joined := update_where person_id
                  (Person.merge (HouseholdDetail.householdId_only (Some h)))
                  (HouseholdDetail.personId values) (people s) in
  (forall p, In p (HouseholdDetail.availablePeople allPeople None) ->
             In p allPeople /\ truthy (person_householdId p) = false)
  /\ HouseholdDetail.handleAddEditMember (Some h) organizationId None values
       (quiet s)
     = (quiet (with_people created joined),
        inr (Some (message_success "Member added successfully")))
  /\ HouseholdDetail.handleAddEditMember (Some h) organizationId None values
       {| store := s; fates := [Deliver; Throw] |}
     = (quiet created, inr (Some (message_error "Network error"))).
Proof.
  intros Hh. cbv zeta.
  split; [intros p Hp; now apply availablePeople_offers|].
  unfold HouseholdDetail.handleAddEditMember. rewrite Hh.
  unfold try_catch, bind, HouseholdMember.create, Person.update, throw, ret.
  split.
  - rewrite request_quiet. cbn [HouseholdMember.create_store fst snd ok success negb].
    cbv beta iota.
    rewrite request_quiet, Person_update_store_fst by reflexivity.
    reflexivity.
  - rewrite request_deliver. cbn [HouseholdMember.create_store fst snd ok success negb].
    cbv beta iota.
    rewrite request_throw. reflexivity.
Qed.

(** The theorem applied to the sample store: p2, who has no household, is
    added to h2. *)
Lemma handleAddEditMember_add_witness :
  HouseholdDetail.handleAddEditMember (Some "h2") "1" None
    {| HouseholdDetail.personId := "p2"; HouseholdDetail.relationship := child |}
    (quiet parish_store)
  = (quiet {| people := [person_with "p1" (Some "h1") [];
                         person_with "p2" (Some "h2") []];
              tags := [];
              households := households parish_store;
              householdMembers := [member_row "hm-0" "h1" "p1" head;
                                   member_row "hm-1" "h2" "p2" child];
              nextId := 2 |},
     inr (Some (message_success "Member added successfully"))).
Proof.
  exact (proj1 (proj2 (handleAddEditMember_add parish_store (people parish_store)
                         "h2" "1"
                         {| HouseholdDetail.personId := "p2";
                            HouseholdDetail.relationship := child |}
                         eq_refl))).
Defined.

(** ** Deleting a household *)


Lemma parish_store_integrity : integrity parish_store.
Proof.
  split.
  - intros p [<-|[<-|[]]] h; unfold active_rows; cbn -[String.eqb].
    + rewrite String.eqb_refl, andb_true_r.
      destruct ("h1" =? h) eqn:E; cbn.
      * apply String.eqb_eq in E. subst h. tauto.
      * apply String.eqb_neq in E. split; [congruence | discriminate].
    + replace ("p1" =? "p2") with false by reflexivity.
      rewrite andb_false_r. cbn. split; discriminate.
  - split.
    + intros p [<-|[<-|[]]]; cbn; split; try contradiction; try discriminate.
      intros h [= <-]. reflexivity.
    + intros m [<-|[]] _. split; reflexivity.
Qed.

(** C1, at the failing input.  The store satisfies both integrity
    conditions; deleting household h1, which has p1 as its member, reports
    success and leaves p1's [householdId] and the member row pointing at an
    archived household. *)
Theorem handleDelete_breaks_integrity :
  let run := HouseholdList.handleDelete (household_named "h1" "Smith")
               (quiet parish_store) in
  integrity parish_store
  /\ snd run = inr (message_success "Household deleted successfully")
  /\ map person_householdId (people (store (fst run))) = [Some "h1"; None]
  /\ resolves_household (store (fst run)) "h1" = false
  /\ ~ no_dangling (store (fst run))
  /\ ~ integrity (store (fst run)).
Proof.
  cbv zeta.
  assert (Hdangling :
            ~ no_dangling
                (store (fst (HouseholdList.handleDelete
                               (household_named "h1" "Smith")
                               (quiet parish_store))))).
  { intros [Hpeople _].
    destruct (Hpeople (person_with "p1" (Some "h1") []) (or_introl eq_refl))
      as [_ Hh].
    specialize (Hh "h1" eq_refl). discriminate Hh. }
  split; [apply parish_store_integrity|].
  split; [reflexivity|].
  split; [reflexivity|].
  split; [reflexivity|].
  split; [exact Hdangling|].
  intros [_ H]. now apply Hdangling.
Qed.

(** C5, at the failing input.  Household h1 has an active member; deleting it
    is not refused: the handler reports success, archives the household and
    touches neither the member row nor the person, so the member is
    orphaned. *)
Theorem handleDelete_orphans_members :
  let run := HouseholdList.handleDelete (household_named "h1" "Smith")
               (quiet parish_store) in
  active_rows parish_store "h1" "p1" = [member_row "hm-0" "h1" "p1" head]
  /\ snd run = inr (message_success "Household deleted successfully")
  /\ map (fun x => (household_id x, household_archived x))
         (households (store (fst run)))
     = [("h1", true); ("h2", false)]
  /\ householdMembers (store (fst run)) = householdMembers parish_store
  /\ active_rows (store (fst run)) "h1" "p1" = [member_row "hm-0" "h1" "p1" head]
  /\ people (store (fst run)) = people parish_store.
Proof. cbv zeta. repeat split. Qed.

(** ** Archiving a tag *)

Lemma includes_filter_out (l : list Id) (t : Id) :
  includes (filter (fun x => negb (x =? t)) l) t = false.
Proof.
  unfold includes. induction l as [|a l IH]; [reflexivity|].
  cbn [filter]. destruct (a =? t) eqn:E; cbn [negb]; [exact IH|].
  cbn [existsb]. rewrite String.eqb_sym, E. exact IH.
Qed.

Lemma filter_none {A : Type} (f : A -> bool) (l : list A) :
  (forall x, In x l -> f x = false) -> filter f l = [].
Proof.
  induction l as [|x xs IH]; intros H; [reflexivity|].
  cbn [filter]. rewrite (H x (or_introl eq_refl)).
  apply IH. intros y Hy. apply H. now right.
Qed.

Section Cascade.
Variable tag : TagType.

(** The loop, run over [pending] with every request delivered: each turn
    finds its person and passes the tag check, so each turn is a merge. *)
Lemma cascade_loop (s0 : Store) (pending l : list PersonType) :
  (forall q, In q pending ->
             find (fun p => person_id p =? person_id q) l <> None) ->
  (forall q, In q pending ->
             forallb (Person.resolves_tag s0)
                     (filter (fun tagId => negb (tagId =? tag_id tag))
                             (person_tagIds q)) = true) ->
  for_of pending
    (fun person =>
       _ <- Person.update (person_id person)
              (Tags.tagIds_only (Tags.updatedTagIds tag person)) ;;
       ret tt)
    (quiet (with_people s0 l))
  = (quiet (with_people s0 (fold_left (Tags.cascade_turn tag) pending l)),
     inr tt).
Proof.
  revert l. induction pending as [|q qs IH]; intros l Hfind Hlive.
  - reflexivity.
  - cbn [for_of fold_left]. unfold bind at 1. unfold bind at 1.
    unfold Person.update. rewrite request_quiet.
    assert (Hq : fst (Person.update_store (person_id q)
                        (Tags.tagIds_only (Tags.updatedTagIds tag q))
                        (with_people s0 l))
                 = with_people s0 (Tags.cascade_turn tag l q)).
    { unfold Person.update_store. cbn [people with_people].
      destruct (find _ l) eqn:F.
      - cbn [Tags.tagIds_only Person.tagIds].
        replace (forallb (Person.resolves_tag (with_people s0 l)) _)
          with true by (symmetry; apply Hlive; now left).
        reflexivity.
      - exfalso. apply (Hfind q (or_introl eq_refl)). exact F. }
    rewrite Hq. cbv beta iota. unfold ret at 1. cbv beta iota.
    apply IH.
    + intros q' Hq'. apply find_update_where_some.
      * intros e. reflexivity.
      * apply Hfind. now right.
    + intros q' Hq'. apply Hlive. now right.
Qed.

(** After the loop a record either no longer carries the tag or is a
    record the loop never addressed. *)
Lemma cascade_fold_clean (pending l : list PersonType) (r : PersonType) :
  In r (fold_left (Tags.cascade_turn tag) pending l) ->
  includes (person_tagIds r) (tag_id tag) = false
  \/ (In r l /\ ~ In (person_id r) (map person_id pending)).
Proof.
  revert l. induction pending as [|q qs IH]; intros l Hr.
  - right. split; [exact Hr | intros []].
  - cbn [fold_left] in Hr. destruct (IH _ Hr) as [Hc | [Hin Hnot]].
    + now left.
    + unfold Tags.cascade_turn in Hin.
      apply update_where_In in Hin. destruct Hin as (e & He & ->).
      destruct (person_id e =? person_id q) eqn:E.
      * left. cbn. apply includes_filter_out.
      * right. split; [exact He|].
        cbn [map]. intros [Heq | Hin]; [|now apply Hnot].
        apply String.eqb_neq in E. congruence.
Qed.

Lemma cascade_fold_ids (pending l : list PersonType) :
  map person_id (fold_left (Tags.cascade_turn tag) pending l) = map person_id l.
Proof.
  revert l. induction pending as [|q qs IH]; intros l; [reflexivity|].
  cbn [fold_left]. rewrite IH. unfold Tags.cascade_turn, update_where.
  rewrite map_map. apply map_ext. intros e.
  now destruct (person_id e =? person_id q).
Qed.








End Cascade.


(** The specification's scenario, run: archiving "volunteer" on the store
    where three people carry it reports success and yields the store without
    any reference to it; archiving it once more changes nothing. *)
Lemma volunteer_scenario :
  let volunteer := tag_named "volunteer" 100 in
  let first := Tags.deleteTag (Person.list volunteer_store) volunteer
                 (quiet volunteer_store) in
  first = (quiet volunteer_archived_store,
           inr (message_success "Tag deleted successfully"))
  /\ Tags.deleteTag (Person.list (store (fst first))) volunteer (fst first)
     = first.
Proof. split; reflexivity. Qed.

(** The answers of the loop's requests are not inspected: when the first one
    is refused, the loop goes on, the tag is archived all the same and p1
    keeps the reference.  Hence the condition, in the theorem on the cascade,
    that the requests are delivered. *)
Remark deleteTag_ignores_refusal :
  let run := Tags.deleteTag (Person.list volunteer_store)
               (tag_named "volunteer" 100)
               {| store := volunteer_store; fates := [Reject] |} in
  snd run = inr (message_success "Tag deleted successfully")
  /\ map person_tagIds (people (store (fst run)))
     = [["volunteer"; "youth"]; []; ["youth"]; []]
  /\ map tag_archived (tags (store (fst run))) = [true; false].
Proof. cbv zeta. repeat split. Qed.




(* ================================================================== *)
(** * Further properties of the components *)

(** ** Guards and permissions *)

Lemma roles_include_In (l : list Role) (r : Role) :
  roles_include l r = true <-> In r l.
Proof.
  unfold roles_include. rewrite existsb_exists. split.
  - intros (x & Hx & E). apply Role_eqb_eq in E. now subst.
  - intros H. exists r. split; [exact H | now apply Role_eqb_eq].
Qed.

(** X1. [RoleGuard] admits a role exactly when the role is in [allowedRoles]
    (if the list is given, an empty list admitting nobody), and is not a
    viewer if edit or staff-only access is required, and is owner or admin if
    settings access is required. *)
Theorem RoleGuard_hasAccess_iff {N : Type} (r : Role) (props : RoleGuard.Props N) :
  RoleGuard.hasAccess r props = true
  <-> (forall l, RoleGuard.allowedRoles props = Some l -> In r l)
      /\ (RoleGuard.requireEdit props = true -> r <> viewer)
      /\ (RoleGuard.requireSettings props = true -> r = owner \/ r = admin)
      /\ (RoleGuard.requireStaffOnly props = true -> r <> viewer).
Proof.
  unfold RoleGuard.hasAccess.
  destruct props as [c ar re rs rso fb]; cbn [RoleGuard.allowedRoles
    RoleGuard.requireEdit RoleGuard.requireSettings RoleGuard.requireStaffOnly].
  destruct ar as [l|].
  - destruct (roles_include l r) eqn:Hin.
    + apply roles_include_In in Hin.
      destruct r, re, rs, rso; cbn; split; intros H;
        try discriminate; try reflexivity;
        try (repeat split; try (intros ? [= <-]; exact Hin);
             try discriminate; auto; fail);
        destruct H as (_ & H1 & H2 & H3);
        try (now specialize (H1 eq_refl));
        try (now specialize (H3 eq_refl));
        try (destruct (H2 eq_refl); discriminate).
    + assert (Hnot : ~ In r l).
      { intros H. apply roles_include_In in H. congruence. }
      cbn [negb]. destruct re, rs, rso, r; cbn; split; intros H;
        try discriminate;
        destruct H as (H0 & _); exfalso; apply Hnot; now apply H0.
  - destruct r, re, rs, rso; cbn; split; intros H;
      try discriminate; try reflexivity;
      try (repeat split; try discriminate; auto; fail);
      destruct H as (_ & H1 & H2 & H3);
      try (now specialize (H1 eq_refl));
      try (now specialize (H3 eq_refl));
      try (destruct (H2 eq_refl); discriminate).
Qed.

(** X2. When no [allowedRoles] list is given, access is monotone in
    privilege: a guard that admits a role admits every role of higher rank
    (viewer, member, admin, owner in rising order). *)
Theorem RoleGuard_monotone {N : Type} (r1 r2 : Role) (props : RoleGuard.Props N) :
  RoleGuard.allowedRoles props = None ->
  role_rank r1 <= role_rank r2 ->
  RoleGuard.hasAccess r1 props = true ->
  RoleGuard.hasAccess r2 props = true.
Proof.
  unfold RoleGuard.hasAccess.
  destruct props as [c ar re rs rso fb]; cbn [RoleGuard.allowedRoles
    RoleGuard.requireEdit RoleGuard.requireSettings RoleGuard.requireStaffOnly].
  intros -> Hrank.
  destruct r1, r2, re, rs, rso; cbn in *; intros H;
    try reflexivity; try discriminate; lia.
Qed.

Lemma RoleGuard_monotone_witness :
  RoleGuard.hasAccess admin
    {| RoleGuard.children := "panel"; RoleGuard.allowedRoles := None;
       RoleGuard.requireEdit := true; RoleGuard.requireSettings := false;
       RoleGuard.requireStaffOnly := true; RoleGuard.fallback := "none" |}
  = true.
Proof.
  apply (RoleGuard_monotone member admin); [reflexivity | cbn; lia | reflexivity].
Defined.

(** X3. The pages' own read-only tests agree with the permission hook: a
    page is read-only exactly when [canEdit] is false, and the profile-field
    settings are read-only exactly when [canManageSettings] is false. *)
Theorem isReadOnly_agrees_with_permissions (r : Role) :
  isReadOnly r = negb (canEdit (usePermissions r) tt)
  /\ isReadOnly r = negb (canDelete (usePermissions r) tt)
  /\ settings_isReadOnly r = negb (canManageSettings (usePermissions r) tt).
Proof. destruct r; repeat split. Qed.

(** X4. The capabilities are nested and rise with the role: whoever may
    manage the organization may manage settings, whoever may manage settings
    may edit, and each capability granted to a role is granted to every role
    of higher rank; exactly one of the four role flags is set. *)
Theorem permissions_nested (r r' : Role) :
  let p := usePermissions r in
  let p' := usePermissions r' in
  (canManageOrganization p tt = true -> canManageSettings p tt = true)
  /\ (canManageSettings p tt = true -> canEdit p tt = true)
  /\ (role_rank r <= role_rank r' ->
      (canEdit p tt = true -> canEdit p' tt = true)
      /\ (canManageSettings p tt = true -> canManageSettings p' tt = true)
      /\ (canManageOrganization p tt = true -> canManageOrganization p' tt = true))
  /\ List.length (filter (fun b => b) [isOwner p; isAdmin p; isMember p; isViewer p])
     = 1.
Proof.
  destruct r, r'; cbn; repeat split; intros; try reflexivity;
    try discriminate; try assumption; lia.
Qed.

(** ** Dashboard statistics *)

Lemma filter_length_le {A : Type} (f : A -> bool) (l : list A) :
  List.length (filter f l) <= List.length l.
Proof.
  induction l as [|x xs IH]; cbn; [lia|]. destruct (f x); cbn; lia.
Qed.

(** X5. The three status counts of the dashboard add up to the total, and
    the count of people added this month never exceeds it. *)
Theorem stats_counts_partition (currentMonth : Z) (people : list PersonType)
        (tags : list TagType) :
  let s := DashboardStats.stats currentMonth people tags in
  DashboardStats.activePeople s + DashboardStats.inactivePeople s
  + DashboardStats.visitorPeople s
  = DashboardStats.totalPeople s
  /\ DashboardStats.peopleAddedThisMonth s <= DashboardStats.totalPeople s.
Proof.
  cbn. split; [|apply filter_length_le].
  induction people as [|p ps IH]; [reflexivity|].
  cbn [filter List.length]. destruct (person_status p); cbn; lia.
Qed.

Lemma first_In {A : Type} (n : nat) (l : list A) (x : A) :
  In x (firstn n l) -> In x l.
Proof.
  revert l. induction n as [|n IH]; intros [|y ys]; cbn; try tauto.
  intros [<-|H]; [now left | right; now apply IH].
Qed.

(** X6. The dashboard lists five tags, or all of them when there are fewer;
    every listed entry is a tag of the response with its count, and no count
    exceeds the number of people. *)
Theorem stats_topTags_size (currentMonth : Z) (people : list PersonType)
        (tags : list TagType) :
  let s := DashboardStats.stats currentMonth people tags in
  List.length (DashboardStats.topTags s) = Nat.min 5 (List.length tags)
  /\ (forall e, In e (DashboardStats.topTags s) ->
        In (Dashboard.tc_tag e) tags
        /\ e = Dashboard.withCount people (Dashboard.tc_tag e)
        /\ Dashboard.count e <= DashboardStats.totalPeople s).
Proof.
  cbv zeta. cbn [DashboardStats.stats DashboardStats.topTags
                   DashboardStats.totalPeople].
  unfold Dashboard.topTags, slice0. split.
  - rewrite length_firstn. unfold Dashboard.rankedTags.
    rewrite (Permutation_length (js_sort_perm _ _)), length_map. reflexivity.
  - intros e He. apply first_In in He.
    unfold Dashboard.rankedTags in He. apply js_sort_In in He.
    apply in_map_iff in He. destruct He as (t & <- & Ht).
    cbn. repeat split; [exact Ht | apply filter_length_le].
Qed.

(** ** Tags of a person, rosters and member counts *)

Lemma map_filter_Boolean_In {A B : Type} (f : A -> option B) (l : list A) (y : B) :
  In y (map_filter_Boolean f l) <-> exists x, In x l /\ f x = Some y.
Proof.
  induction l as [|a l IH]; cbn.
  - split; [intros [] | intros (x & [] & _)].
  - destruct (f a) eqn:Fa; cbn; rewrite IH; split.
    + intros [<- | (x & Hx & Hf)]; [exists a | exists x]; auto.
    + intros (x & [<- | Hx] & Hf); [left; congruence | right; exists x; auto].
    + intros (x & Hx & Hf). exists x. auto.
    + intros (x & [<- | Hx] & Hf); [congruence | exists x; auto].
Qed.

(** X7. The tags shown for a person are, in the order of the person's
    [tagIds], exactly those ids that some listed tag carries; an id that no
    listed tag carries is left out silently, and without a person the list is
    empty. *)
Theorem getPersonTags_ids (p : PersonType) (tags : list TagType) :
  map tag_id (PersonTags.getPersonTags (Some p) tags)
  = filter (fun tagId => existsb (fun t => tag_id t =? tagId) tags)
           (person_tagIds p)
  /\ (forall t, In t (PersonTags.getPersonTags (Some p) tags) -> In t tags)
  /\ PersonTags.getPersonTags None tags = [].
Proof.
  cbn [PersonTags.getPersonTags]. split; [|split; [|reflexivity]].
  - induction (person_tagIds p) as [|i ids IH]; [reflexivity|].
    cbn [map_filter_Boolean filter].
    destruct (find (fun t => tag_id t =? i) tags) as [t|] eqn:F.
    + pose proof (find_some _ _ F) as [Hin Heq].
      apply String.eqb_eq in Heq.
      replace (existsb (fun t0 => tag_id t0 =? i) tags) with true.
      * cbn [map]. now rewrite IH, Heq.
      * symmetry. apply existsb_exists. exists t. split; [exact Hin|].
        now apply String.eqb_eq.
    + replace (existsb (fun t0 => tag_id t0 =? i) tags) with false; [exact IH|].
      symmetry. apply not_true_is_false. intros H.
      apply existsb_exists in H. destruct H as (t & Hin & Heq).
      pose proof (find_none _ _ F _ Hin) as Hn. cbn in Hn. congruence.
  - intros t Ht. apply map_filter_Boolean_In in Ht.
    destruct Ht as (i & _ & F). now apply find_some in F.
Qed.

(** X8. A member row appears on the household page exactly when its
    [householdId] is the page's id and some listed person carries its
    [personId]; it is shown with the first such person, and rows whose person
    cannot be found are left out.  The [archived] mark of a row plays no
    part. *)
Theorem roster_members_iff (id : Id) (membersRes : list HouseholdMemberType)
        (peopleRes : list PersonType) (m : HouseholdMemberType) (p : PersonType) :
  In {| HouseholdRoster.row := m; HouseholdRoster.person := p |}
     (HouseholdRoster.members id membersRes peopleRes)
  <-> In m membersRes /\ hm_householdId m = id
      /\ find (fun q => person_id q =? hm_personId m) peopleRes = Some p.
Proof.
  unfold HouseholdRoster.members. rewrite map_filter_Boolean_In. split.
  - intros (x & Hx & Hf). apply filter_In in Hx. destruct Hx as [Hin Hid].
    apply String.eqb_eq in Hid.
    destruct (find _ peopleRes) as [q|] eqn:F; [|discriminate].
    injection Hf as <- <-. auto.
  - intros (Hin & Hid & F). exists m. split.
    + apply filter_In. split; [exact Hin | now apply String.eqb_eq].
    + now rewrite F.
Qed.

Lemma memberCount_split (h : HouseholdType) (hs : list HouseholdType)
      (rows : list HouseholdMemberType) :
  ~ In (household_id h) (map household_id hs) ->
  List.length (filter (fun m => hm_householdId m =? household_id h) rows)
  + List.length
      (filter (fun m => existsb (fun x => hm_householdId m =? household_id x) hs)
              rows)
  = List.length
      (filter (fun m => existsb (fun x => hm_householdId m =? household_id x)
                                (h :: hs))
              rows).
Proof.
  intros Hnew. induction rows as [|m rows IH]; [reflexivity|].
  cbn [filter existsb].
  destruct (hm_householdId m =? household_id h) eqn:E1; cbn [orb].
  - assert (E2 : existsb (fun x => hm_householdId m =? household_id x) hs = false).
    { apply not_true_is_false. intros H. apply existsb_exists in H.
      destruct H as (x & Hx & Hid).
      apply String.eqb_eq in E1, Hid. apply Hnew.
      rewrite <- E1, Hid. now apply in_map. }
    rewrite E2. cbn [List.length]. cbn [existsb] in IH. lia.
  - cbn [existsb] in IH.
    destruct (existsb _ hs); cbn [List.length]; lia.
Qed.

(** X9. When the listed households have distinct ids, the member counts of
    the household table add up to the number of member rows that belong to a
    listed household, so no row is counted twice and the sum never exceeds
    the number of rows. *)
Theorem memberCount_sum (householdsRes : list HouseholdType)
        (membersRes : list HouseholdMemberType) :
  NoDup (map household_id householdsRes) ->
  sum_memberCount (HouseholdsTable.householdsWithMembers householdsRes membersRes)
  = List.length
      (filter (fun m => existsb (fun x => hm_householdId m =? household_id x)
                                householdsRes)
              membersRes)
  /\ sum_memberCount (HouseholdsTable.householdsWithMembers householdsRes membersRes)
     <= List.length membersRes.
Proof.
  intros Hnd.
  assert (Heq : sum_memberCount
                  (HouseholdsTable.householdsWithMembers householdsRes membersRes)
                = List.length
                    (filter (fun m => existsb (fun x => hm_householdId m
                                                        =? household_id x)
                                              householdsRes)
                            membersRes)).
  { induction householdsRes as [|h hs IH].
    - cbn. induction membersRes as [|m ms IHm]; [reflexivity | exact IHm].
    - cbn [map] in Hnd. inversion Hnd as [|? ? Hnew Hnd']; subst.
      cbn [HouseholdsTable.householdsWithMembers map sum_memberCount fold_right
             HouseholdsTable.memberCount].
      fold (HouseholdsTable.householdsWithMembers hs membersRes).
      fold (sum_memberCount (HouseholdsTable.householdsWithMembers hs membersRes)).
      rewrite (IH Hnd'). now apply memberCount_split. }
  split; [exact Heq|]. rewrite Heq. apply filter_length_le.
Qed.

Lemma memberCount_sum_witness :
  sum_memberCount
    (HouseholdsTable.householdsWithMembers (households parish_store)
       (householdMembers parish_store))
  <= 1.
Proof.
  apply (memberCount_sum (households parish_store) (householdMembers parish_store)).
  cbn. repeat constructor; cbn; intuition discriminate.
Defined.

(** ** What the handlers leave alone *)

Section Keeps.
Variable R : Store -> Store -> Prop.
Hypothesis R_refl : forall s, R s s.
Hypothesis R_trans : forall a b c, R a b -> R b c -> R a c.

Lemma keeps_ret {A : Type} (a : A) : keeps R (ret a).
Proof. intros w. apply R_refl. Qed.

Lemma keeps_throw {A : Type} (msg : string) : keeps R (@throw A msg).
Proof. intros w. apply R_refl. Qed.

Lemma keeps_bind {A B : Type} (m : Task A) (k : A -> Task B) :
  keeps R m -> (forall a, keeps R (k a)) -> keeps R (bind m k).
Proof.
  intros Hm Hk w. unfold bind. specialize (Hm w).
  destruct (m w) as [w' [e|a]]; cbn in *; [exact Hm|].
  eapply R_trans; [exact Hm | apply Hk].
Qed.

Lemma keeps_try_catch {A : Type} (body : Task A) (handler : string -> Task A) :
  keeps R body -> (forall e, keeps R (handler e)) -> keeps R (try_catch body handler).
Proof.
  intros Hb Hh w. unfold try_catch. specialize (Hb w).
  destruct (body w) as [w' [e|a]]; cbn in *; [|exact Hb].
  eapply R_trans; [exact Hb | apply Hh].
Qed.

Lemma keeps_for_of {A : Type} (l : list A) (body : A -> Task unit) :
  (forall x, keeps R (body x)) -> keeps R (for_of l body).
Proof.
  intros Hb. induction l as [|x xs IH]; cbn [for_of].
  - apply keeps_ret.
  - apply keeps_bind; [apply Hb | intros _; exact IH].
Qed.

Lemma keeps_request {T : Type} (op : Store -> Store * ApiResponse T) :
  (forall s, R s (fst (op s))) -> keeps R (request op).
Proof.
  intros Hop [s fs]. unfold request. cbn [fates store].
  destruct fs as [|[| |] fs]; try apply R_refl;
    specialize (Hop s); destruct (op s); exact Hop.
Qed.
End Keeps.

Lemma same_entities_refl (s : Store) : same_entities s s.
Proof. repeat split. exists []. now rewrite app_nil_r. Qed.

Lemma same_entities_trans (a b c : Store) :
  same_entities a b -> same_entities b c -> same_entities a c.
Proof.
  intros (P1 & T1 & H1 & x & M1) (P2 & T2 & H2 & y & M2).
  repeat split; try congruence.
  exists (x ++ y)%list. now rewrite M2, M1, app_assoc.
Qed.

Lemma update_where_ids {E : Type} (id_of : E -> Id) (merge : E -> E)
      (id : Id) (l : list E) :
  (forall e, id_of (merge e) = id_of e) ->
  map id_of (update_where id_of merge id l) = map id_of l.
Proof.
  intros H. unfold update_where. rewrite map_map. apply map_ext.
  intros e. destruct (id_of e =? id); auto.
Qed.

Lemma Person_update_same_entities (id : Id) (patch : Person.Patch) (s : Store) :
  same_entities s (fst (Person.update_store id patch s)).
Proof.
  unfold Person.update_store.
  destruct (find _ (people s)); [|apply same_entities_refl].
  destruct (match Person.tagIds patch with Some _ => _ | None => _ end);
    [|apply same_entities_refl].
  cbn. repeat split.
  - now apply update_where_ids.
  - exists []. now rewrite app_nil_r.
Qed.

Lemma TagEntity_update_same_entities (id : Id) (patch : TagEntity.Patch) (s : Store) :
  same_entities s (fst (TagEntity.update_store id patch s)).
Proof.
  unfold TagEntity.update_store.
  destruct (find _ (tags s)); [|apply same_entities_refl].
  cbn. repeat split.
  - now apply update_where_ids.
  - exists []. now rewrite app_nil_r.
Qed.

Lemma Household_update_same_entities (id : Id) (patch : Household.Patch) (s : Store) :
  same_entities s (fst (Household.update_store id patch s)).
Proof.
  unfold Household.update_store.
  destruct (find _ (households s)); [|apply same_entities_refl].
  cbn. repeat split.
  - now apply update_where_ids.
  - exists []. now rewrite app_nil_r.
Qed.

Lemma HouseholdMember_update_same_entities (id : Id)
      (patch : HouseholdMember.Patch) (s : Store) :
  same_entities s (fst (HouseholdMember.update_store id patch s)).
Proof.
  unfold HouseholdMember.update_store.
  destruct (find _ (householdMembers s)); [|apply same_entities_refl].
  cbn. repeat split. exists [].
  rewrite app_nil_r. now apply update_where_ids.
Qed.

Lemma HouseholdMember_create_same_entities (d : HouseholdMember.Draft) (s : Store) :
  same_entities s (fst (HouseholdMember.create_store d s)).
Proof.
  unfold HouseholdMember.create_store, same_entities.
  cbn [fst people tags households householdMembers].
  repeat split. exists [HouseholdMember.fresh_id (nextId s)].
  rewrite map_app. reflexivity.
Qed.

Ltac keeps_steps :=
  repeat first
    [ exact same_entities_refl
    | exact same_entities_trans
    | match goal with |- forall _, _ => intros ? end
    | apply keeps_try_catch
    | apply keeps_bind
    | apply keeps_for_of
    | apply keeps_ret
    | apply keeps_throw
    | apply keeps_request
    | apply Person_update_same_entities
    | apply TagEntity_update_same_entities
    | apply Household_update_same_entities
    | apply HouseholdMember_update_same_entities
    | apply HouseholdMember_create_same_entities ].

(** X10. No handler ever removes an entity or changes an id: whatever the
    arguments and whatever becomes of the requests, after [deleteTag], the
    member add/edit and remove handlers, the household deletion and the bulk
    action the store holds the same people, tags and households by id, and
    the same member rows by id, with new rows only appended. *)
Theorem handlers_never_remove
        (people : list PersonType) (tag : TagType)
        (id : option Id) (organizationId : Id)
        (editingMember : option HouseholdMemberType)
        (values : HouseholdDetail.Values) (member : HouseholdMemberType)
        (household : HouseholdType) (selected : list Id) (action : string) :
  keeps same_entities (Tags.deleteTag people tag)
  /\ keeps same_entities
       (HouseholdDetail.handleAddEditMember id organizationId editingMember values)
  /\ keeps same_entities (HouseholdDetail.handleRemoveMember member)
  /\ keeps same_entities (HouseholdList.handleDelete household)
  /\ keeps same_entities (PeopleList.handleBulkAction selected action).
Proof.
  split; [|split; [|split; [|split]]].
  - unfold Tags.deleteTag, Tags.cascade, Tags.archive, Person.update,
      TagEntity.update. cbv zeta. keeps_steps.
  - unfold HouseholdDetail.handleAddEditMember.
    destruct id as [hid|]; [|keeps_steps].
    destruct (truthy (Some hid)); [|keeps_steps].
    unfold HouseholdMember.update, HouseholdMember.create, Person.update.
    destruct editingMember; keeps_steps; destruct (negb _); keeps_steps.
  - unfold HouseholdDetail.handleRemoveMember, HouseholdMember.update,
      Person.update. keeps_steps.
  - unfold HouseholdList.handleDelete, Household.update.
    keeps_steps; destruct (negb _); keeps_steps.
  - unfold PeopleList.handleBulkAction, Person.update.
    destruct (Nat.eqb _ 0); [keeps_steps|].
    destruct (action =? "inactivate"); keeps_steps.
Qed.

(** ** Deleting a tag: failures and frame *)

Lemma Person_update_keeps_tags (id : Id) (patch : Person.Patch) (s : Store) :
  tags (fst (Person.update_store id patch s)) = tags s.
Proof.
  unfold Person.update_store. destruct (find _ (people s)); [|reflexivity].
  now destruct (match Person.tagIds patch with Some _ => _ | None => _ end).
Qed.

Lemma cascade_keeps_tags (people : list PersonType) (tag : TagType) :
  keeps (fun s s' => tags s' = tags s) (Tags.cascade people tag).
Proof.
  unfold Tags.cascade. cbv zeta.
  apply keeps_for_of; [reflexivity | intros; congruence |].
  intros person. apply keeps_bind; [intros; congruence | |].
  - apply keeps_request; [reflexivity|].
    intros s. apply Person_update_keeps_tags.
  - intros _ w. reflexivity.
Qed.

Lemma deleteTag_unfold (people : list PersonType) (tag : TagType) (w : World) :
  Tags.deleteTag people tag w
  = match Tags.cascade people tag w with
    | (w1, inl e) => (w1, inr (message_error e))
    | (w1, inr _) =>
        match Tags.archive tag w1 with
        | (w2, inl e) => (w2, inr (message_error e))
        | (w2, inr _) => (w2, inr (message_success "Tag deleted successfully"))
        end
    end.
Proof.
  unfold Tags.deleteTag, try_catch, bind, ret.
  destruct (Tags.cascade people tag w) as [w1 [e|u]]; [reflexivity|].
  destruct (Tags.archive tag w1) as [w2 [e|r]]; reflexivity.
Qed.

(** X11. [deleteTag] never throws; and whenever it reports an error,
    whatever the people list it was given and whatever became of the
    requests, the tag collection is as before: the tag is archived only
    after every request of the loop went through without throwing. *)
Theorem deleteTag_error_keeps_tags (people : list PersonType) (tag : TagType)
        (w : World) :
  match snd (Tags.deleteTag people tag w) with
  | inr (message_error _) =>
      tags (store (fst (Tags.deleteTag people tag w))) = tags (store w)
  | inr (message_success _) => True
  | inl _ => False
  end.
Proof.
  rewrite deleteTag_unfold.
  pose proof (cascade_keeps_tags people tag w) as Hloop.
  destruct (Tags.cascade people tag w) as [w1 [e|u]]; cbn [fst snd] in *.
  - exact Hloop.
  - unfold Tags.archive, TagEntity.update, request.
    destruct w1 as [s1 fs]. cbn [fates store] in *.
    destruct fs as [|[| |] fs];
      try (destruct (TagEntity.update_store _ _ s1)); cbn; auto.
Qed.

Lemma only_tags_touched_refl (s : Store) : only_tags_touched s s.
Proof. repeat split. Qed.

Lemma only_tags_touched_trans (a b c : Store) :
  only_tags_touched a b -> only_tags_touched b c -> only_tags_touched a c.
Proof.
  intros (P1 & H1 & M1 & N1) (P2 & H2 & M2 & N2). repeat split; congruence.
Qed.

(** X12. [deleteTag] touches nothing but tag ids and tags: whatever the
    people list it is given and the fates of the requests, households, member rows and the
    id counter are as before, and every person is as before in everything
    except, possibly, [tagIds]. *)
Theorem deleteTag_only_tags_touched (loaded : list PersonType) (tag : TagType) :
  keeps only_tags_touched (Tags.deleteTag loaded tag).
Proof.
  unfold Tags.deleteTag, Tags.cascade, Tags.archive, Person.update,
    TagEntity.update. cbv zeta.
  apply keeps_try_catch; [exact only_tags_touched_trans | |].
  - apply keeps_bind; [exact only_tags_touched_trans | |].
    + apply keeps_for_of;
        [exact only_tags_touched_refl | exact only_tags_touched_trans |].
      intros person. apply keeps_bind; [exact only_tags_touched_trans | |].
      * apply keeps_request; [exact only_tags_touched_refl|].
        intros s. unfold Person.update_store.
        destruct (find _ _); [|apply only_tags_touched_refl].
        destruct (match Person.tagIds _ with Some _ => _ | None => _ end);
          [|apply only_tags_touched_refl].
        unfold only_tags_touched.
        cbn [fst with_people people households householdMembers nextId].
        split; [|repeat split].
        unfold update_where. rewrite map_map.
        apply map_ext. intros q. now destruct (person_id q =? person_id person).
      * intros _. apply keeps_ret. exact only_tags_touched_refl.
    + intros _. apply keeps_bind; [exact only_tags_touched_trans | |].
      * apply keeps_request; [exact only_tags_touched_refl|].
        intros s. unfold TagEntity.update_store.
        destruct (find _ (tags s));
          [cbn; repeat split | apply only_tags_touched_refl].
      * intros _. apply keeps_ret. exact only_tags_touched_refl.
  - intros e. apply keeps_ret. exact only_tags_touched_refl.
Qed.

(** ** After a tag is deleted *)

Lemma deleteTag_quiet_final (tag : TagType) (s : Store) :
  (forall p, In p (people s) ->
   forall t, In t (person_tagIds p) -> Person.resolves_tag s t = true) ->
  let cleaned :=
    fold_left (Tags.cascade_turn tag)
      (filter (fun person => includes (person_tagIds person) (tag_id tag))
              (people s))
      (people s) in
  Tags.deleteTag (Person.list s) tag (quiet s)
  = (quiet (with_tags (with_people s cleaned)
              (update_where tag_id (TagEntity.merge Tags.archived_true)
                            (tag_id tag) (tags s))),
     inr (message_success "Tag deleted successfully"))
  /\ (forall r, In r cleaned -> includes (person_tagIds r) (tag_id tag) = false).
Proof.
  intros Hlive. cbv zeta. split.
  - rewrite deleteTag_unfold. unfold Tags.cascade, Person.list. cbv zeta.
    replace (quiet s) with (quiet (with_people s (people s))) at 1
      by now destruct s.
    rewrite cascade_loop.
    + unfold Tags.archive, TagEntity.update.
      rewrite request_quiet, TagEntity_update_store_fst. reflexivity.
    + intros q Hq. apply filter_In in Hq.
      apply (In_find_some person_id). apply Hq.
    + intros q Hq. apply filter_In in Hq. apply forallb_forall.
      intros t Ht. apply filter_In in Ht. apply (Hlive q); tauto.
  - intros r Hr.
    destruct (cascade_fold_clean _ _ _ _ Hr) as [Hc | [Hin Hnot]]; [exact Hc|].
    destruct (includes (person_tagIds r) (tag_id tag)) eqn:E; [|reflexivity].
    exfalso. apply Hnot. apply in_map. apply filter_In. now split.
Qed.

(** X13. Once [deleteTag] has run on a freshly loaded page with every
    request delivered (and the store's tag ids all resolving), a reload
    counts zero people for that tag, on the tag page and on the dashboard
    alike, whichever tags the tag list then returns. *)
Theorem usage_zero_after_deleteTag (tag : TagType) (s : Store)
        (tagsRes : list TagType) :
  (forall p, In p (people s) ->
   forall t, In t (person_tagIds p) -> Person.resolves_tag s t = true) ->
  let s' := store (fst (Tags.deleteTag (Person.list s) tag (quiet s))) in
  (forall e, In e (TagsList.tagsWithUsage tagsRes (Person.list s')) ->
             tag_id (TagsList.tag e) = tag_id tag -> TagsList.usageCount e = 0)
  /\ (forall e, In e (Dashboard.rankedTags (Person.list s') tagsRes) ->
                tag_id (Dashboard.tc_tag e) = tag_id tag -> Dashboard.count e = 0).
Proof.
  intros Hlive. destruct (deleteTag_quiet_final tag s Hlive) as [Hrun Hclean].
  cbv zeta. rewrite Hrun. cbn [fst store quiet Person.list people with_tags
                               with_people].
  split.
  - intros e He Hid. apply in_map_iff in He. destruct He as (t & <- & _).
    cbn in *. rewrite Hid, filter_none; [reflexivity | exact Hclean].
  - intros e He Hid. unfold Dashboard.rankedTags in He.
    apply js_sort_In in He. apply in_map_iff in He. destruct He as (t & <- & _).
    cbn in *. rewrite Hid, filter_none; [reflexivity | exact Hclean].
Qed.

Lemma usage_zero_after_deleteTag_witness :
  Forall (fun e => tag_id (TagsList.tag e) = "volunteer" ->
                   TagsList.usageCount e = 0)
         (TagsList.tagsWithUsage (tags volunteer_store)
            (Person.list
               (store (fst (Tags.deleteTag (Person.list volunteer_store)
                              (tag_named "volunteer" 100)
                              (quiet volunteer_store)))))).
Proof.
  apply Forall_forall.
  apply (usage_zero_after_deleteTag (tag_named "volunteer" 100) volunteer_store
           (tags volunteer_store)).
  intros p Hp t Ht. cbn in Hp.
  repeat (destruct Hp as [<-|Hp]; [cbn in Ht; intuition (subst; reflexivity)|]).
  destruct Hp.
Defined.

(** ** The bulk action of the people list *)








(** ** Household handlers: edges and failures *)

(** X16. The member handler does nothing without a household id; and when
    the write of the member row fails (the create is refused, or the row to
    edit does not exist) it reports the backend's message and never sends
    the person update, so the store is as before. *)
Theorem handleAddEditMember_failures (h organizationId : Id)
        (em : HouseholdMemberType) (editingMember : option HouseholdMemberType)
        (values : HouseholdDetail.Values) (s : Store) (fs : list Fate) :
  truthy (Some h) = true ->
  find (fun m => hm_id m =? hm_id em) (householdMembers s) = None ->
  HouseholdDetail.handleAddEditMember None organizationId editingMember values
    {| store := s; fates := fs |}
  = ({| store := s; fates := fs |}, inr None)
  /\ HouseholdDetail.handleAddEditMember (Some EmptyString) organizationId
       editingMember values {| store := s; fates := fs |}
     = ({| store := s; fates := fs |}, inr None)
  /\ HouseholdDetail.handleAddEditMember (Some h) organizationId None values
       {| store := s; fates := Reject :: fs |}
     = ({| store := s; fates := fs |}, inr (Some (message_error "Internal error")))
  /\ HouseholdDetail.handleAddEditMember (Some h) organizationId (Some em) values
       (quiet s)
     = (quiet s,
        inr (Some (message_error "ReferenceError: household member not found"))).
Proof.
  intros Hh Hnone. split; [reflexivity|]. split; [reflexivity|].
  unfold HouseholdDetail.handleAddEditMember. rewrite Hh.
  unfold try_catch, bind, HouseholdMember.create, HouseholdMember.update, throw, ret.
  split.
  - rewrite request_reject. reflexivity.
  - rewrite request_quiet. unfold HouseholdMember.update_store. rewrite Hnone.
    reflexivity.
Qed.

Lemma handleAddEditMember_failures_witness :
  HouseholdDetail.handleAddEditMember (Some "h2") "1"
    (Some (member_row "hm-9" "h2" "p2" child))
    {| HouseholdDetail.personId := "p2"; HouseholdDetail.relationship := child |}
    (quiet parish_store)
  = (quiet parish_store,
     inr (Some (message_error "ReferenceError: household member not found"))).
Proof.
  apply (handleAddEditMember_failures "h2" "1" (member_row "hm-9" "h2" "p2" child)
           None
           {| HouseholdDetail.personId := "p2";
              HouseholdDetail.relationship := child |}
           parish_store [] eq_refl eq_refl).
Defined.

(** X17. Editing a member, with both requests delivered, rewrites the
    existing row (person, relationship, household; the row keeps its id and
    its archived mark) and sets the chosen person's [householdId]; nobody
    else is written, so when the edit names a different person the person
    previously on the row keeps the [householdId] it had. *)
Theorem handleAddEditMember_edit (h organizationId : Id) (em : HouseholdMemberType)
        (values : HouseholdDetail.Values) (s : Store) :
  truthy (Some h) = true ->
  find (fun m => hm_id m =? hm_id em) (householdMembers s) <> None ->
  let rewritten :=
    update_where hm_id
      (fun m => {| hm_id := hm_id m;
                   hm_organizationId := organizationId;
                   hm_householdId := h;
                   hm_personId := HouseholdDetail.personId values;
                   hm_relationship := HouseholdDetail.relationship values;
                   hm_archived := hm_archived m |})
      (hm_id em) (householdMembers s) in
  let joined :=
    update_where person_id
      (Person.merge (HouseholdDetail.householdId_only (Some h)))
      (HouseholdDetail.personId values) (people s) in
  HouseholdDetail.handleAddEditMember (Some h) organizationId (Some em) values
    (quiet s)
  = (quiet (with_people (with_householdMembers s rewritten) joined),
     inr (Some (message_success "Member updated successfully")))
  /\ (forall p, In p (people s) ->
                person_id p <> HouseholdDetail.personId values -> In p joined).
Proof.
  intros Hh Hfound. cbv zeta. split.
  - unfold HouseholdDetail.handleAddEditMember. rewrite Hh.
    unfold try_catch, bind, HouseholdMember.update, Person.update, throw, ret.
    rewrite request_quiet, HouseholdMember_update_store_fst.
    unfold HouseholdMember.update_store.
    destruct (find _ (householdMembers s)) as [m|]; [|contradiction].
    cbn [snd ok success negb]. cbv beta iota.
    rewrite request_quiet, Person_update_store_fst by reflexivity.
    reflexivity.
  - intros p Hp Hne. apply update_where_In. exists p. split; [exact Hp|].
    apply String.eqb_neq in Hne. now rewrite Hne.
Qed.

Lemma handleAddEditMember_edit_witness :
  HouseholdDetail.handleAddEditMember (Some "h1") "1"
    (Some (member_row "hm-0" "h1" "p1" head))
    {| HouseholdDetail.personId := "p2"; HouseholdDetail.relationship := spouse |}
    (quiet parish_store)
  = (quiet {| people := [person_with "p1" (Some "h1") [];
                         person_with "p2" (Some "h1") []];
              tags := [];
              households := households parish_store;
              householdMembers := [member_row "hm-0" "h1" "p2" spouse];
              nextId := 1 |},
     inr (Some (message_success "Member updated successfully"))).
Proof.
  refine (proj1 (handleAddEditMember_edit "h1" "1"
                   (member_row "hm-0" "h1" "p1" head)
                   {| HouseholdDetail.personId := "p2";
                      HouseholdDetail.relationship := spouse |}
                   parish_store eq_refl _)).
  cbn. discriminate.
Defined.


(** X18. Whatever the store and whatever becomes of the request,
    [handleDelete] ends in one of three ways, decided by the answer to its
    one [Household.update].  If the call throws, nothing is stored and the
    thrown error's message is shown as an error.  If the answer is a
    refusal, nothing is stored and the answer's message is shown as an
    error.  Only an accepted answer gives "Household deleted successfully". *)
Theorem handleDelete_failures (household : HouseholdType) (s : Store)
        (fs : list Fate) :
  let w := {| store := s; fates := fs |} in
  let run := HouseholdList.handleDelete household w in
  let answer :=
    Household.update (household_id household) HouseholdList.archived_true w in
  match snd answer with
  | inl err =>
      run = (fst answer, inr (message_error err)) /\ store (fst run) = s
  | inr response =>
      if success response
      then run = (fst answer,
                  inr (message_success "Household deleted successfully"))
      else run = (fst answer, inr (message_error (message response)))
           /\ store (fst run) = s
  end.
Proof.
  cbv zeta.
  unfold HouseholdList.handleDelete, try_catch, bind, Household.update, throw, ret.
  destruct fs as [|[| |] fs]; unfold request; cbn [fates store];
    try (cbn; split; reflexivity);
    unfold Household.update_store;
    destruct (find _ (households s));
    cbn; try reflexivity; split; reflexivity.
Qed.




(** ** Reading an uploaded file *)

Lemma split_nonempty (sep : ascii) (s : string) : ImportExport.split sep s <> [].
Proof.
  destruct s as [|c rest]; cbn; [discriminate|].
  destruct (Ascii.eqb c sep); [discriminate|].
  destruct (ImportExport.split sep rest); discriminate.
Qed.

Lemma split_no_sep (sep : ascii) (s : string) :
  has_char sep s = false -> ImportExport.split sep s = [s].
Proof.
  induction s as [|c rest IH]; cbn; [reflexivity|].
  intros H. apply orb_false_iff in H. destruct H as [Hc Hrest].
  rewrite Hc, (IH Hrest). reflexivity.
Qed.

Lemma split_app (sep : ascii) (cell rest : string) :
  has_char sep cell = false ->
  ImportExport.split sep (cell ++ String sep rest)
  = cell :: ImportExport.split sep rest.
Proof.
  induction cell as [|c cell IH]; cbn.
  - intros _. now rewrite Ascii.eqb_refl.
  - intros H. apply orb_false_iff in H. destruct H as [Hc Hcell].
    rewrite Hc, (IH Hcell). reflexivity.
Qed.

Lemma split_concat (sep : ascii) (cells : list string) :
  cells <> [] ->
  Forall (fun cell => has_char sep cell = false) cells ->
  ImportExport.split sep (String.concat (String sep EmptyString) cells) = cells.
Proof.
  induction cells as [|c cells IH]; [congruence|].
  intros _ Hall. inversion Hall as [|? ? Hc Hrest]; subst.
  destruct cells as [|c' cells].
  - cbn. now apply split_no_sep.
  - change (String.concat (String sep EmptyString) (c :: c' :: cells))
      with (c ++ String sep (String.concat (String sep EmptyString) (c' :: cells))).
    rewrite split_app by exact Hc. rewrite IH; [reflexivity | discriminate | exact Hrest].
Qed.

Lemma has_char_app (c : ascii) (a b : string) :
  has_char c (a ++ b) = has_char c a || has_char c b.
Proof.
  induction a as [|d a IH]; cbn; [reflexivity|].
  now rewrite IH, orb_assoc.
Qed.

Lemma has_char_concat (c sep : ascii) (cells : list string) :
  Ascii.eqb sep c = false ->
  Forall (fun cell => has_char c cell = false) cells ->
  has_char c (String.concat (String sep EmptyString) cells) = false.
Proof.
  intros Hsep. induction cells as [|x cells IH]; [reflexivity|].
  intros Hall. inversion Hall as [|? ? Hx Hrest]; subst.
  destruct cells as [|y cells]; [exact Hx|].
  change (String.concat (String sep EmptyString) (x :: y :: cells))
    with (x ++ String sep (String.concat (String sep EmptyString) (y :: cells))).
  rewrite has_char_app, Hx. cbn [has_char orb]. rewrite Hsep. cbn [orb].
  now apply IH.
Qed.

(** X21. Reading back a table written as text returns it: when the header
    row is not empty, every data row has at least two cells and no cell
    holds a comma or a line feed, the upload handler yields exactly the
    header row and the data rows, and moves to step 1. *)
Theorem handleFileUpload_reads_back (headers : list string)
        (rows : list (list string)) :
  headers <> [] ->
  Forall (fun row => 2 <= List.length row) rows ->
  Forall (Forall (fun cell => has_char ImportExport.comma cell = false
                              /\ has_char ImportExport.newline cell = false))
         (headers :: rows) ->
  ImportExport.handleFileUpload (csv_text (headers :: rows))
  = {| ImportExport.csvHeaders := headers;
       ImportExport.csvData := rows;
       ImportExport.currentStep := 1 |}.
Proof.
  intros Hh Hlen Hcells.
  assert (Hne : forall row, In row (headers :: rows) -> row <> []).
  { intros row [<-|Hin]; [exact Hh|].
    rewrite Forall_forall in Hlen. specialize (Hlen row Hin).
    destruct row; [cbn in Hlen; lia | discriminate]. }
  assert (Hlines :
            ImportExport.split ImportExport.newline (csv_text (headers :: rows))
            = map (String.concat (String ImportExport.comma EmptyString))
                  (headers :: rows)).
  { unfold csv_text. apply split_concat; [discriminate|].
    apply Forall_forall. intros line Hline. apply in_map_iff in Hline.
    destruct Hline as (row & <- & Hrow).
    apply has_char_concat; [reflexivity|].
    rewrite Forall_forall in Hcells. specialize (Hcells row Hrow).
    eapply Forall_impl; [|exact Hcells]. intros cell [_ H]. exact H. }
  assert (Hrows :
            map (fun row => ImportExport.split ImportExport.comma row)
                (map (String.concat (String ImportExport.comma EmptyString))
                     (headers :: rows))
            = headers :: rows).
  { rewrite map_map. rewrite <- (map_id (headers :: rows)) at 2.
    apply map_ext_in. intros row Hrow. apply split_concat; [now apply Hne|].
    rewrite Forall_forall in Hcells. specialize (Hcells row Hrow).
    eapply Forall_impl; [|exact Hcells]. intros cell [H _]. exact H. }
  unfold ImportExport.handleFileUpload. rewrite Hlines, Hrows. cbn [hd tl].
  f_equal. clear -Hlen. induction rows as [|r rows IH]; [reflexivity|].
  inversion Hlen as [|? ? Hr Hrest]; subst. cbn [filter].
  replace (Nat.ltb 1 (List.length r)) with true
    by (symmetry; apply Nat.ltb_lt; lia).
  now rewrite IH.
Qed.

Lemma handleFileUpload_reads_back_witness :
  ImportExport.handleFileUpload
    (csv_text [["First Name"; "Status"]; ["Pat"; "active"]; ["Sam"; "visitor"]])
  = {| ImportExport.csvHeaders := ["First Name"; "Status"];
       ImportExport.csvData := [["Pat"; "active"]; ["Sam"; "visitor"]];
       ImportExport.currentStep := 1 |}.
Proof.
  apply handleFileUpload_reads_back.
  - discriminate.
  - repeat constructor; cbn; lia.
  - repeat constructor.
Defined.

Lemma split_length (sep : ascii) (s : string) :
  Nat.ltb 1 (List.length (ImportExport.split sep s)) = has_char sep s.
Proof.
  induction s as [|c rest IH]; [reflexivity|]. cbn [ImportExport.split has_char].
  destruct (Ascii.eqb c sep); cbn [orb].
  - pose proof (split_nonempty sep rest).
    destruct (ImportExport.split sep rest); [congruence | reflexivity].
  - destruct (ImportExport.split sep rest); [discriminate IH || exact IH | exact IH].
Qed.

(** X22. The first line of the uploaded text is always taken as the header
    row, whatever it holds; of the lines after it, exactly those that
    contain a comma become data rows, in their order, so blank lines, a
    trailing line feed and the lines of a one-column file are dropped. *)
Theorem handleFileUpload_rows (text : string) :
  let lines := ImportExport.split ImportExport.newline text in
  ImportExport.csvHeaders (ImportExport.handleFileUpload text)
  = ImportExport.split ImportExport.comma (hd EmptyString lines)
  /\ ImportExport.csvData (ImportExport.handleFileUpload text)
     = map (ImportExport.split ImportExport.comma)
           (filter (has_char ImportExport.comma) (tl lines)).
Proof.
  cbv zeta. unfold ImportExport.handleFileUpload.
  cbn [ImportExport.csvHeaders ImportExport.csvData].
  pose proof (split_nonempty ImportExport.newline text) as Hne.
  destruct (ImportExport.split ImportExport.newline text) as [|l ls];
    [congruence|].
  cbn [map hd tl]. split; [reflexivity|].
  clear. induction ls as [|x ls IH]; [reflexivity|].
  cbn [map filter]. rewrite split_length.
  destruct (has_char ImportExport.comma x); cbn [map]; now rewrite IH.
Qed.

Lemma indexOf_nth (l : list string) (x : string) :
  In x l ->
  exists i, ImportExport.indexOf l x = Z.of_nat i /\ nth_error l i = Some x.
Proof.
  induction l as [|y ys IH]; [intros []|].
  intros Hin. cbn [ImportExport.indexOf].
  destruct (y =? x) eqn:E.
  - apply String.eqb_eq in E. subst. exists 0. split; reflexivity.
  - destruct Hin as [->|Hin]; [rewrite String.eqb_refl in E; discriminate|].
    destruct (IH Hin) as (i & Hi & Hn). exists (S i). rewrite Hi.
    replace (Z.of_nat i <? 0)%Z with false by (symmetry; apply Z.ltb_ge; lia).
    split; [lia | exact Hn].
Qed.

Lemma indexOf_first (l : list string) (x : string) :
  In x l ->
  exists i, ImportExport.indexOf l x = Z.of_nat i
            /\ nth_error l i = Some x
            /\ forall j, j < i -> nth_error l j <> Some x.
Proof.
  induction l as [|y ys IH]; [intros []|].
  intros Hin. cbn [ImportExport.indexOf]. destruct (y =? x) eqn:E.
  - apply String.eqb_eq in E. subst. exists 0.
    split; [reflexivity|]. split; [reflexivity|]. intros j Hj. lia.
  - destruct Hin as [->|Hin]; [rewrite String.eqb_refl in E; discriminate|].
    destruct (IH Hin) as (i & Hi & Hn & Hfirst). exists (S i). rewrite Hi.
    replace (Z.of_nat i <? 0)%Z with false by (symmetry; apply Z.ltb_ge; lia).
    split; [lia|]. split; [exact Hn|].
    intros [|j] Hj; cbn.
    + intros [= ->]. rewrite String.eqb_refl in E. discriminate.
    + apply Hfirst. lia.
Qed.

Lemma own_property_set (m : ImportExport.ColumnMapping) (header value h : string) :
  ImportExport.own_property (ImportExport.setColumnMapping m header value) h
  = if header =? h then Some value else ImportExport.own_property m h.
Proof.
  induction m as [|[name old] rest IH]; cbn.
  - reflexivity.
  - destruct (name =? header) eqn:E; cbn.
    + apply String.eqb_eq in E. subst name.
      destruct (header =? h); reflexivity.
    + destruct (name =? h) eqn:E2.
      * apply String.eqb_eq in E2. subst name.
        rewrite String.eqb_sym in E. now rewrite E.
      * exact IH.
Qed.

(** X23. The import preview has a column for a header of the file exactly
    when reading that header from [columnMapping] gives something truthy:
    a field other than "Skip this column" was chosen for it, or no choice
    was made and the header is named like a member of [Object.prototype]
    (constructor, toString, ...), which the plain object answers with an
    inherited function.  The column's title is the value read and its data
    index is the first position of the header in the header row.  A choice
    made for a header is what the next reading of that header gives, and it
    leaves the other headers as they were. *)
Theorem previewColumns_index (csvHeaders : list string)
        (columnMapping : ImportExport.ColumnMapping) :
  (forall c,
     In c (ImportExport.previewColumns csvHeaders columnMapping)
     <-> In (ImportExport.key c) csvHeaders
         /\ ImportExport.js_truthy (ImportExport.get columnMapping (ImportExport.key c))
            = true
         /\ ImportExport.title c = ImportExport.get columnMapping (ImportExport.key c)
         /\ exists i, ImportExport.dataIndex c = Z.of_nat i
                      /\ nth_error csvHeaders i = Some (ImportExport.key c)
                      /\ forall j, j < i ->
                           nth_error csvHeaders j <> Some (ImportExport.key c))
  /\ (forall header,
        ImportExport.js_truthy (ImportExport.get columnMapping header) = true
        <-> (exists field, ImportExport.own_property columnMapping header = Some field
                           /\ field <> EmptyString)
            \/ (ImportExport.own_property columnMapping header = None
                /\ In header ImportExport.Object_prototype))
  /\ (forall header value h,
        ImportExport.get (ImportExport.setColumnMapping columnMapping header value) h
        = if header =? h then ImportExport.own_value value
          else ImportExport.get columnMapping h).
Proof.
  split; [|split].
  - intros c. unfold ImportExport.previewColumns. rewrite in_map_iff. split.
    + intros (header & <- & Hh). apply filter_In in Hh.
      destruct Hh as [Hin Hmapped].
      cbn [ImportExport.key ImportExport.title ImportExport.dataIndex].
      split; [exact Hin|]. split; [exact Hmapped|]. split; [reflexivity|].
      now apply indexOf_first.
    + intros (Hin & Hmapped & Htitle & i & Hi & Hn & Hfirst).
      exists (ImportExport.key c). split.
      * destruct c as [t d k]. cbn in *. subst t. f_equal.
        destruct (indexOf_first csvHeaders k Hin) as (i' & Hi' & Hn' & Hfirst').
        rewrite Hi', Hi. f_equal.
        destruct (Nat.lt_trichotomy i i') as [Hlt|[Heq|Hgt]]; [|exact (eq_sym Heq)|].
        -- exfalso. exact (Hfirst' i Hlt Hn).
        -- exfalso. exact (Hfirst i' Hgt Hn').
      * apply filter_In. now split.
  - intros header. unfold ImportExport.get.
    destruct (ImportExport.own_property columnMapping header) as [field|] eqn:O.
    + cbn [ImportExport.js_truthy]. split.
      * intros Ht. left. exists field. split; [reflexivity|].
        intros ->. discriminate Ht.
      * intros [(f & [= <-] & Hne)|[Hnone _]]; [|discriminate Hnone].
        destruct field; [contradiction|reflexivity].
    + destruct (includes ImportExport.Object_prototype header) eqn:I;
        cbn [ImportExport.js_truthy]; split.
      * intros _. right. split; [reflexivity|].
        unfold includes in I. apply existsb_exists in I.
        destruct I as (x & Hx & Heq). apply String.eqb_eq in Heq. now subst x.
      * reflexivity.
      * discriminate.
      * intros [(f & Hf & _)|[_ Hin]]; [discriminate Hf|].
        assert (includes ImportExport.Object_prototype header = true) as I'.
        { unfold includes. apply existsb_exists. exists header.
          split; [exact Hin | apply String.eqb_refl]. }
        congruence.
  - intros header value h. unfold ImportExport.get.
    rewrite own_property_set. destruct (header =? h); reflexivity.
Qed.

(** A file whose header row holds "constructor": with a field chosen for
    "Name" only, the preview shows a second column, titled by the inherited
    function, for the header nobody mapped. *)
Example previewColumns_inherited :
  map ImportExport.key
      (ImportExport.previewColumns ["Name"; "Email"; "constructor"]
         (ImportExport.setColumnMapping
            (ImportExport.setColumnMapping [] "Name" "firstName") "Email" EmptyString))
  = ["Name"; "constructor"].
Proof. reflexivity. Qed.

(** ** Orders of the lists shown *)

(** X24. The notes of the person page are exactly the notes of that person,
    newest first; notes with the same creation time keep the order of the
    response. *)
Theorem personNotes_newest_first (id : Id) (notesRes : list NoteType) :
  let own := filter (fun note => note_personId note =? id) notesRes in
  let shown := PersonProfile.personNotes id notesRes in
  Permutation shown own
  /\ StronglySorted (fun a b => (note_createdAt b <= note_createdAt a)%Z) shown
  /\ (forall t, filter (fun n => (note_createdAt n =? t)%Z) shown
                = filter (fun n => (note_createdAt n =? t)%Z) own).
Proof.
  cbv zeta. unfold PersonProfile.personNotes. split; [apply js_sort_perm|]. split.
  - eapply StronglySorted_weaken;
      [| apply (js_sort_sorted (fun a b => (note_createdAt b - note_createdAt a)%Z))].
    + unfold js_before. intros a b H. lia.
    + intros x y. lia.
    + intros x y z. lia.
  - intros t. apply js_sort_stable. intros x y Hx Hy.
    apply Z.eqb_eq in Hx, Hy. lia.
Qed.

(** X25. The settings page lists exactly the non-archived field
    definitions, by ascending [orderIndex]; definitions with the same
    [orderIndex] keep the order of the response. *)
Theorem sortedFields_ascending (fieldsRes : list ProfileFieldDefType) :
  let live := filter (fun field => negb (pfd_archived field)) fieldsRes in
  let shown := ProfileFields.sortedFields fieldsRes in
  Permutation shown live
  /\ StronglySorted (fun a b => (pfd_orderIndex a <= pfd_orderIndex b)%Z) shown
  /\ (forall i, filter (fun f => (pfd_orderIndex f =? i)%Z) shown
                = filter (fun f => (pfd_orderIndex f =? i)%Z) live).
Proof.
  cbv zeta. unfold ProfileFields.sortedFields. split; [apply js_sort_perm|]. split.
  - eapply StronglySorted_weaken;
      [| apply (js_sort_sorted (fun a b => (pfd_orderIndex a - pfd_orderIndex b)%Z))].
    + unfold js_before. intros a b H. lia.
    + intros x y. lia.
    + intros x y z. lia.
  - intros i. apply js_sort_stable. intros x y Hx Hy.
    apply Z.eqb_eq in Hx, Hy. lia.
Qed.

(** ** Filtering the people list *)

Lemma includes_In (l : list Id) (x : Id) : includes l x = true <-> In x l.
Proof.
  unfold includes. rewrite existsb_exists. split.
  - intros (y & Hy & E). apply String.eqb_eq in E. now subst.
  - intros H. exists x. split; [exact H | apply String.eqb_refl].
Qed.

Lemma filter_all {A : Type} (f : A -> bool) (l : list A) :
  (forall x, f x = true) -> filter f l = l.
Proof.
  intros H. induction l as [|x xs IH]; [reflexivity|].
  cbn [filter]. now rewrite H, IH.
Qed.

(** X26. With an empty search box, no status and no tag chosen, the people
    list shows everybody; a chosen status alone shows exactly the people of
    that status; chosen tags alone show exactly the people carrying at least
    one of them; and a status or tag filter never adds a row to what the
    search alone shows. *)
Theorem filteredPeople_filters (toLowerCase : string -> string)
        (people : list PeopleList.PersonRow) (searchQuery : string)
        (statusFilter : option Status) (tagFilter : list Id) :
  PeopleList.filteredPeople toLowerCase people EmptyString None [] = people
  /\ (forall st,
        PeopleList.filteredPeople toLowerCase people EmptyString (Some st) []
        = filter (fun p => Status_eqb (person_status (PeopleList.core p)) st)
                 people)
  /\ (forall p,
        In p (PeopleList.filteredPeople toLowerCase people EmptyString None
                tagFilter)
        <-> In p people
            /\ (tagFilter = []
                \/ exists t, In t tagFilter
                             /\ In t (person_tagIds (PeopleList.core p))))
  /\ (forall p,
        In p (PeopleList.filteredPeople toLowerCase people searchQuery
                statusFilter tagFilter) ->
        In p (PeopleList.filteredPeople toLowerCase people searchQuery None [])).
Proof.
  unfold PeopleList.filteredPeople. cbv zeta. repeat split.
  - apply filter_all. intros p. reflexivity.
  - intros st. apply filter_ext. intros p. cbn. now rewrite andb_true_r.
  - apply filter_In in H. apply H.
  - apply filter_In in H. destruct H as [_ H]. cbn in H.
    destruct tagFilter as [|a l]; [now left|]. right.
    cbn [List.length Nat.eqb orb] in H.
    apply existsb_exists in H. destruct H as (t & Ht & Hin).
    exists t. split; [exact Ht | now apply includes_In].
  - intros [Hin Htags]. apply filter_In. split; [exact Hin|]. cbn.
    destruct Htags as [->|(t & Ht & Hp)]; [reflexivity|].
    destruct tagFilter as [|a l]; [destruct Ht|].
    cbn [List.length Nat.eqb orb]. apply existsb_exists.
    exists t. split; [exact Ht | now apply includes_In].
  - intros p Hp. apply filter_In in Hp. destruct Hp as [Hin H].
    apply filter_In. split; [exact Hin|].
    apply andb_true_iff in H. destruct H as [H _].
    apply andb_true_iff in H. destruct H as [H _].
    rewrite H. reflexivity.
Qed.

(** ** Reordering the profile fields *)

Lemma sorted_unique {A : Type} (key : A -> Z) (l1 l2 : list A) :
  StronglySorted (fun a b => (key a <= key b)%Z) l1 ->
  StronglySorted (fun a b => (key a < key b)%Z) l2 ->
  Permutation l1 l2 -> l1 = l2.
Proof.
  revert l2. induction l1 as [|a l1 IH]; intros l2 H1 H2 Hp.
  - apply Permutation_nil in Hp. now subst.
  - destruct l2 as [|b l2].
    + apply Permutation_sym, Permutation_nil in Hp. discriminate.
    + inversion H1 as [|? ? H1' Ha]; subst.
      inversion H2 as [|? ? H2' Hb]; subst.
      rewrite Forall_forall in Ha, Hb.
      assert (Hab : a = b).
      { assert (Hin1 : In a (b :: l2))
          by (eapply Permutation_in; [exact Hp | now left]).
        destruct Hin1 as [<-|Hin1]; [reflexivity|].
        assert (Hin2 : In b (a :: l1))
          by (eapply Permutation_in; [apply Permutation_sym; exact Hp | now left]).
        destruct Hin2 as [->|Hin2]; [reflexivity|].
        specialize (Ha _ Hin2). specialize (Hb _ Hin1). lia. }
      subst b. f_equal. apply IH; try assumption.
      eapply Permutation_cons_inv. exact Hp.
Qed.

Lemma js_sort_of_permuted {A : Type} (key : A -> Z) (l sorted : list A) :
  Permutation l sorted ->
  StronglySorted (fun a b => (key a < key b)%Z) sorted ->
  js_sort (fun a b => (key a - key b)%Z) l = sorted.
Proof.
  intros Hp Hs. apply (sorted_unique key); [|exact Hs|].
  - eapply StronglySorted_weaken;
      [| apply (js_sort_sorted (fun a b => (key a - key b)%Z))].
    + unfold js_before. intros a b H. lia.
    + intros x y. lia.
    + intros x y z. lia.
  - eapply perm_trans; [apply js_sort_perm | exact Hp].
Qed.

Lemma nth_error_split_at {A : Type} (l : list A) (n : nat) (x : A) :
  nth_error l n = Some x ->
  l = (firstn n l ++ x :: skipn (S n) l)%list.
Proof.
  revert n. induction l as [|y l IH]; intros [|n] H; try discriminate.
  - cbn in H. injection H as ->. reflexivity.
  - cbn in H. cbn [firstn skipn app]. f_equal. now apply IH.
Qed.

Lemma arrayMove_perm {A : Type} (l : list A) (from to : nat) :
  Permutation (FieldOrder.arrayMove l from to) l.
Proof.
  unfold FieldOrder.arrayMove.
  destruct (nth_error l from) as [x|] eqn:E; [|apply Permutation_refl].
  rewrite (nth_error_split_at l from x E) at 5.
  eapply perm_trans; [apply Permutation_sym, Permutation_middle|].
  rewrite firstn_skipn. apply Permutation_middle.
Qed.

Lemma findIndex_nth (l : list ProfileFieldDefType) (id : Id) (i : nat) :
  FieldOrder.findIndex l id = Some i ->
  exists f, nth_error l i = Some f /\ pfd_id f = id.
Proof.
  revert i. induction l as [|f l IH]; intros i H; [discriminate|].
  cbn in H. destruct (pfd_id f =? id) eqn:E.
  - injection H as <-. exists f. split; [reflexivity | now apply String.eqb_eq].
  - destruct (FieldOrder.findIndex l id) as [j|] eqn:F; [|discriminate].
    injection H as <-. apply (IH j eq_refl).
Qed.

Lemma findIndex_none (l : list ProfileFieldDefType) (id : Id) :
  ~ In id (map pfd_id l) -> FieldOrder.findIndex l id = None.
Proof.
  induction l as [|f l IH]; [reflexivity|]. cbn. intros H.
  destruct (pfd_id f =? id) eqn:E.
  - apply String.eqb_eq in E. exfalso. apply H. now left.
  - rewrite IH; [reflexivity|]. intros Hin. apply H. now right.
Qed.

(** What the delivered loop has made of a stored definition. *)
Lemma renumbered_map (i : nat) (nf l : list ProfileFieldDefType) :
  NoDup (map pfd_id nf) ->
  renumbered i nf l
  = map (fun e => match FieldOrder.findIndex nf (pfd_id e) with
                  | Some j => at_position (Z.of_nat (i + j)) e
                  | None => e
                  end)
        l.
Proof.
  revert i l. induction nf as [|f rest IH]; intros i l Hnd.
  - cbn. symmetry. apply map_id.
  - cbn [map] in Hnd. inversion Hnd as [|? ? Hnew Hnd']; subst.
    cbn [renumbered]. rewrite (IH _ _ Hnd'). unfold update_where.
    rewrite map_map. apply map_ext. intros e. cbn [FieldOrder.findIndex].
    rewrite (String.eqb_sym (pfd_id f) (pfd_id e)).
    destruct (pfd_id e =? pfd_id f) eqn:E.
    + apply String.eqb_eq in E. cbn [at_position ProfileFieldDef.merge pfd_id].
      rewrite E, (findIndex_none rest (pfd_id f) Hnew).
      now rewrite Nat.add_0_r.
    + destruct (FieldOrder.findIndex rest (pfd_id e)); [|reflexivity].
      f_equal. lia.
Qed.

Lemma renumbered_of_listed (i : nat) (nf : list ProfileFieldDefType) :
  NoDup (map pfd_id nf) ->
  map (fun e => match FieldOrder.findIndex nf (pfd_id e) with
                | Some j => at_position (Z.of_nat (i + j)) e
                | None => e
                end)
      nf
  = numbered i nf.
Proof.
  revert i. induction nf as [|f rest IH]; intros i Hnd; [reflexivity|].
  cbn [map] in Hnd. inversion Hnd as [|? ? Hnew Hnd']; subst.
  cbn [map numbered FieldOrder.findIndex]. rewrite String.eqb_refl.
  rewrite Nat.add_0_r. f_equal. rewrite <- (IH (S i) Hnd').
  apply map_ext_in. intros e He.
  destruct (pfd_id f =? pfd_id e) eqn:E.
  - apply String.eqb_eq in E. exfalso. apply Hnew. rewrite E. now apply in_map.
  - destruct (FieldOrder.findIndex rest (pfd_id e)); [|reflexivity].
    f_equal. lia.
Qed.

Lemma numbered_ids (i : nat) (l : list ProfileFieldDefType) :
  map pfd_id (numbered i l) = map pfd_id l.
Proof.
  revert i. induction l as [|f l IH]; intros i; [reflexivity|].
  cbn. now rewrite IH.
Qed.

Lemma numbered_orderIndex (i : nat) (l : list ProfileFieldDefType) :
  map pfd_orderIndex (numbered i l) = map Z.of_nat (seq i (List.length l)).
Proof.
  revert i. induction l as [|f l IH]; intros i; [reflexivity|].
  cbn. now rewrite IH.
Qed.

Lemma numbered_sorted (i : nat) (l : list ProfileFieldDefType) :
  StronglySorted (fun a b => (pfd_orderIndex a < pfd_orderIndex b)%Z)
                 (numbered i l).
Proof.
  revert i. induction l as [|f l IH]; intros i; [constructor|].
  cbn [numbered]. constructor; [apply IH|].
  apply Forall_forall. intros b Hb.
  assert (Hge : forall k m x, In x (numbered k m) -> (Z.of_nat k <= pfd_orderIndex x)%Z).
  { clear. intros k m. revert k. induction m as [|g m IHm]; intros k x Hx.
    - destruct Hx.
    - destruct Hx as [<-|Hx]; [cbn; lia|]. specialize (IHm (S k) x Hx). lia. }
  specialize (Hge _ _ _ Hb). cbn. lia.
Qed.

Lemma filter_map_same {A : Type} (keep : A -> bool) (g : A -> A) (l : list A) :
  (forall x, keep (g x) = keep x) ->
  filter keep (map g l) = map g (filter keep l).
Proof.
  intros H. induction l as [|x l IH]; [reflexivity|].
  cbn. rewrite H. destruct (keep x); cbn; now rewrite IH.
Qed.

Lemma NoDup_map_filter {A B : Type} (f : A -> B) (keep : A -> bool) (l : list A) :
  NoDup (map f l) -> NoDup (map f (filter keep l)).
Proof.
  induction l as [|x l IH]; cbn; [auto|].
  intros H. inversion H as [|? ? Hnew Hnd]; subst.
  destruct (keep x); [|now apply IH].
  cbn. constructor; [|now apply IH].
  intros Hin. apply Hnew. apply in_map_iff in Hin.
  destruct Hin as (y & Hy & Hin). apply filter_In in Hin.
  rewrite <- Hy. apply in_map. apply Hin.
Qed.

Lemma FieldDef_update_store_fst (id : Id) (patch : ProfileFieldDef.Patch)
      (l : list ProfileFieldDefType) :
  fst (ProfileFieldDef.update_store id patch l)
  = update_where pfd_id (ProfileFieldDef.merge patch) id l.
Proof.
  unfold ProfileFieldDef.update_store.
  destruct (find _ l) eqn:F; [reflexivity|].
  cbn. symmetry. now apply find_none_update_where.
Qed.

Lemma request_quiet_fields {T : Type}
      (op : list ProfileFieldDefType -> list ProfileFieldDefType * ApiResponse T)
      (l : list ProfileFieldDefType) :
  ProfileFieldDef.request op (quiet_fields l)
  = (quiet_fields (fst (op l)), inr (snd (op l))).
Proof. unfold ProfileFieldDef.request, quiet_fields. cbn. now destruct (op l). Qed.

Lemma reindex_quiet (i : nat) (nf l : list ProfileFieldDefType) :
  FieldOrder.reindex_from i nf (quiet_fields l)
  = (quiet_fields (renumbered i nf l), inr tt).
Proof.
  revert i l. induction nf as [|f rest IH]; intros i l; [reflexivity|].
  cbn [FieldOrder.reindex_from renumbered].
  unfold ProfileFieldDef.bind at 1. unfold ProfileFieldDef.update.
  rewrite request_quiet_fields, FieldDef_update_store_fst. cbv beta iota.
  apply IH.
Qed.

(** X27. A drag, once its requests are all delivered, is what a reload
    shows: on a page loaded from a store whose definitions have distinct
    ids, dropping row [active] on row [over] reports success and shows the
    moved list, and afterwards the stored order, as the settings page sorts
    it, lists the same fields in the same order with [orderIndex] 0, 1, 2,
    ... without gaps. *)
Theorem handleDragEnd_persists (stored : list ProfileFieldDefType)
        (active over : Id) (oldIndex newIndex : nat) :
  NoDup (map pfd_id stored) ->
  active <> over ->
  FieldOrder.findIndex (ProfileFields.sortedFields stored) active = Some oldIndex ->
  FieldOrder.findIndex (ProfileFields.sortedFields stored) over = Some newIndex ->
  let fields := ProfileFields.sortedFields stored in
  let newFields := FieldOrder.arrayMove fields oldIndex newIndex in
  let after := renumbered 0 newFields stored in
  exists run,
    FieldOrder.handleDragEnd fields active over = Some run
    /\ run (quiet_fields stored)
       = (quiet_fields after,
          inr {| FieldOrder.fields := newFields;
                 FieldOrder.toast := Some (message_success "Field order updated");
                 FieldOrder.error := None |})
    /\ Permutation newFields fields
    /\ map pfd_id (ProfileFields.sortedFields after) = map pfd_id newFields
    /\ map pfd_orderIndex (ProfileFields.sortedFields after)
       = map Z.of_nat (seq 0 (List.length fields)).
Proof.
  intros Hnd Hne Hold Hnew. cbv zeta.
  set (fields := ProfileFields.sortedFields stored) in *.
  set (newFields := FieldOrder.arrayMove fields oldIndex newIndex).
  assert (Hperm : Permutation newFields fields) by apply arrayMove_perm.
  assert (Hlive : Permutation fields
                    (filter (fun field => negb (pfd_archived field)) stored))
    by apply js_sort_perm.
  assert (Hnd' : NoDup (map pfd_id newFields)).
  { eapply Permutation_NoDup;
      [apply Permutation_map, Permutation_sym; eapply perm_trans;
       [exact Hperm | exact Hlive]|].
    now apply NoDup_map_filter. }
  assert (Hsorted : ProfileFields.sortedFields (renumbered 0 newFields stored)
                    = numbered 0 newFields).
  { unfold ProfileFields.sortedFields at 1.
    rewrite (renumbered_map 0 newFields stored Hnd').
    rewrite filter_map_same
      by (intros x; destruct (FieldOrder.findIndex newFields (pfd_id x));
          reflexivity).
    apply (js_sort_of_permuted pfd_orderIndex); [|apply numbered_sorted].
    rewrite <- (renumbered_of_listed 0 newFields Hnd').
    apply Permutation_map. apply Permutation_sym.
    eapply perm_trans; [exact Hperm | exact Hlive]. }
  eexists. split; [|split; [|split; [exact Hperm|split]]].
  - unfold FieldOrder.handleDragEnd.
    replace (active =? over) with false
      by (symmetry; now apply String.eqb_neq).
    cbn [negb]. fold fields. rewrite Hold, Hnew. reflexivity.
  - unfold ProfileFieldDef.try_catch. unfold ProfileFieldDef.bind at 1.
    fold newFields. rewrite reindex_quiet. reflexivity.
  - rewrite Hsorted. apply numbered_ids.
  - rewrite Hsorted, numbered_orderIndex.
    now rewrite (Permutation_length Hperm).
Qed.

Lemma handleDragEnd_persists_witness :
  exists run,
    FieldOrder.handleDragEnd (ProfileFields.sortedFields reordered_fields)
      "birthday" "shirt_size" = Some run
    /\ map pfd_id
         (ProfileFields.sortedFields
            (ProfileFieldDef.stored (fst (run (quiet_fields reordered_fields)))))
       = ["shirt_size"; "birthday"].
Proof.
  assert (Hnd : NoDup (map pfd_id reordered_fields)).
  { cbn. repeat constructor; cbn; intuition discriminate. }
  destruct (handleDragEnd_persists reordered_fields "birthday" "shirt_size" 0 1
              Hnd ltac:(discriminate) eq_refl eq_refl)
    as (run & Hrun & Hres & _ & Hids & _).
  exists run. split; [exact Hrun|].
  rewrite Hres. cbn [fst quiet_fields ProfileFieldDef.stored].
  rewrite Hids. reflexivity.
Defined.

Lemma findIndex_lt (l : list ProfileFieldDefType) (id : Id) (i : nat) :
  FieldOrder.findIndex l id = Some i -> i < List.length l.
Proof.
  intros H. destruct (findIndex_nth l id i H) as (f & Hf & _).
  apply nth_error_Some. congruence.
Qed.

Lemma arrayMove_length {A : Type} (l : list A) (from to : nat) :
  List.length (FieldOrder.arrayMove l from to) = List.length l.
Proof. apply Permutation_length, arrayMove_perm. Qed.

(** X28. A drag puts the dragged row at the position of the row it was
    dropped on and leaves all other rows in the order they had. *)
Theorem arrayMove_lands (fields : list ProfileFieldDefType) (active over : Id)
        (oldIndex newIndex : nat) :
  FieldOrder.findIndex fields active = Some oldIndex ->
  FieldOrder.findIndex fields over = Some newIndex ->
  let newFields := FieldOrder.arrayMove fields oldIndex newIndex in
  (exists f, nth_error fields oldIndex = Some f
             /\ nth_error newFields newIndex = Some f
             /\ pfd_id f = active)
  /\ filter (fun x => negb (pfd_id x =? active)) newFields
     = filter (fun x => negb (pfd_id x =? active)) fields
  /\ List.length newFields = List.length fields.
Proof.
  intros Hold Hnew. cbv zeta.
  destruct (findIndex_nth _ _ _ Hold) as (f & Hf & Hid).
  pose proof (findIndex_lt _ _ _ Hnew) as Hlt.
  pose proof (nth_error_split_at _ _ _ Hf) as Hsplit.
  set (rest := (firstn oldIndex fields ++ skipn (S oldIndex) fields)%list).
  assert (Hmove : FieldOrder.arrayMove fields oldIndex newIndex
                  = (firstn newIndex rest ++ f :: skipn newIndex rest)%list).
  { unfold FieldOrder.arrayMove. now rewrite Hf. }
  rewrite Hmove.
  assert (Hlen : List.length fields = S (List.length rest)).
  { rewrite Hsplit at 1. unfold rest. rewrite !length_app. cbn. lia. }
  assert (Hdrop : negb (pfd_id f =? active) = false)
    by (rewrite Hid, String.eqb_refl; reflexivity).
  assert (Hrest : filter (fun x => negb (pfd_id x =? active)) fields
                  = filter (fun x => negb (pfd_id x =? active)) rest).
  { rewrite Hsplit at 1. unfold rest. rewrite !filter_app. cbn [filter].
    now rewrite Hdrop. }
  split; [|split].
  - exists f. split; [exact Hf|]. split; [|exact Hid].
    rewrite nth_error_app2; rewrite length_firstn; [|lia].
    replace (newIndex - Nat.min newIndex (List.length rest)) with 0 by lia.
    reflexivity.
  - rewrite Hrest, filter_app. cbn [filter].
    now rewrite Hdrop, <- filter_app, firstn_skipn.
  - rewrite length_app. cbn [List.length]. rewrite length_firstn, length_skipn. lia.
Qed.

Lemma arrayMove_lands_witness :
  map pfd_id
    (FieldOrder.arrayMove (ProfileFields.sortedFields reordered_fields) 0 1)
  = ["shirt_size"; "birthday"]
  /\ List.length
       (FieldOrder.arrayMove (ProfileFields.sortedFields reordered_fields) 0 1)
     = 2.
Proof.
  split; [reflexivity|].
  exact (proj2 (proj2 (arrayMove_lands (ProfileFields.sortedFields reordered_fields)
                         "birthday" "shirt_size" 0 1 eq_refl eq_refl))).
Defined.

(** X29. When the first request of a drag throws, nothing is stored and
    "Failed to update field order" is shown; the reload that follows puts
    the stored order back in the table.  If that reload throws as well,
    still nothing is stored: the fields state keeps the moved list and the
    load error is set, so the component renders the error alert with that
    error instead of the table. *)
Theorem handleDragEnd_first_throw (stored fields : list ProfileFieldDefType)
        (active over : Id) (oldIndex newIndex : nat) :
  active <> over ->
  FieldOrder.findIndex fields active = Some oldIndex ->
  FieldOrder.findIndex fields over = Some newIndex ->
  exists run,
    FieldOrder.handleDragEnd fields active over = Some run
    /\ (let page :=
          {| FieldOrder.fields := ProfileFields.sortedFields stored;
             FieldOrder.toast :=
               Some (message_error "Failed to update field order");
             FieldOrder.error := None |} in
        run {| ProfileFieldDef.stored := stored; ProfileFieldDef.fates := [Throw] |}
        = (quiet_fields stored, inr page)
        /\ FieldOrder.render page
           = FieldOrder.fields_table (ProfileFields.sortedFields stored))
    /\ (exists err,
          let page :=
            {| FieldOrder.fields := FieldOrder.arrayMove fields oldIndex newIndex;
               FieldOrder.toast :=
                 Some (message_error "Failed to update field order");
               FieldOrder.error := Some err |} in
          run {| ProfileFieldDef.stored := stored;
                 ProfileFieldDef.fates := [Throw; Throw] |}
          = (quiet_fields stored, inr page)
          /\ FieldOrder.render page = FieldOrder.error_alert err).
Proof.
  intros Hne Hold Hnew.
  pose proof (arrayMove_length fields oldIndex newIndex) as Hlen.
  pose proof (findIndex_lt _ _ _ Hold) as Hlt.
  eexists. split; [|split].
  - unfold FieldOrder.handleDragEnd.
    replace (active =? over) with false
      by (symmetry; now apply String.eqb_neq).
    cbn [negb]. rewrite Hold, Hnew. reflexivity.
  - cbv zeta. split; [|reflexivity].
    destruct (FieldOrder.arrayMove fields oldIndex newIndex) as [|f nf];
      [cbn in Hlen; lia|].
    reflexivity.
  - eexists. cbv zeta. split.
    + destruct (FieldOrder.arrayMove fields oldIndex newIndex) as [|f nf] eqn:E;
        [cbn in Hlen; lia|].
      reflexivity.
    + reflexivity.
Qed.

Lemma handleDragEnd_first_throw_witness :
  exists run,
    FieldOrder.handleDragEnd (ProfileFields.sortedFields reordered_fields)
      "birthday" "shirt_size" = Some run
    /\ ProfileFieldDef.stored
         (fst (run {| ProfileFieldDef.stored := reordered_fields;
                      ProfileFieldDef.fates := [Throw] |}))
       = reordered_fields.
Proof.
  destruct (handleDragEnd_first_throw reordered_fields
              (ProfileFields.sortedFields reordered_fields)
              "birthday" "shirt_size" 0 1 ltac:(discriminate) eq_refl eq_refl)
    as (run & Hrun & (Hres & _) & _).
  exists run. split; [exact Hrun|]. rewrite Hres. reflexivity.
Defined.
